(** * exifextract: GPS decoding and metadata reporting

    A shallow embedding of [exifextract.py] and the properties of its GPS
    decoder, value formatter, metadata printer and image dispatcher.

    Conventions of the embedding:
    - Python [int] is [Z]; Python [float] is IEEE-754 binary64 with
      round-to-nearest-even, modelled in [Module Float];
    - Python [bytes] is a [string] (one [ascii] per byte); Python [str] is
      held as its UTF-8 encoding, also a [string];
    - a raised exception is the [Raise] case of [result]; [print] appends a
      line to the output carried by [io];
    - the collaborators that live outside the script (the image opener, the
      EXIF block parser and the tag-name table of piexif) are Section
      variables of [Section Program]. *)

From Stdlib Require Import ZArith List String Ascii Bool Lia DecimalString QArith.
Import ListNotations.
Open Scope list_scope.
Open Scope string_scope.
Open Scope Z_scope.

(** ** Text helpers *)

Definition str := string.
Definition bytes := string.

(** [str(n)] for a Python integer. *)
Definition str_of_Z (z : Z) : str := NilZero.string_of_int (Z.to_int z).

Definition dquote : str := String (ascii_of_nat 34) "".
Definition ESC : str := String (ascii_of_nat 27) "".

Definition byte_val (c : ascii) : Z := Z.of_N (N_of_ascii c).

Definition hex_digit (d : Z) : str :=
  String.substring (Z.to_nat d) 1 "0123456789abcdef".

(** [%02x] *)
Definition hex2 (b : Z) : str := (hex_digit (b / 16) ++ hex_digit (b mod 16)).

(** [sep.join(parts)] *)
Definition join (sep : str) (parts : list str) : str := String.concat sep parts.

(** ** Exceptions and results *)

Inductive exn_class :=
| ZeroDivisionError | OverflowError | UnicodeDecodeError | TypeError
| ValueError | IndexError | AttributeError | KeyError | IOError | OtherError.

(** An exception object: its class and the text of [str(e)]. *)
Record exn := mk_exn { exn_cls : exn_class; exn_text : str }.

Inductive result (A : Type) :=
| Ok (a : A)
| Raise (e : exn).
Arguments Ok {A} a.
Arguments Raise {A} e.

Definition bind {A B} (c : result A) (k : A -> result B) : result B :=
  match c with
  | Ok a => k a
  | Raise e => Raise e
  end.

Declare Scope py_scope.
Delimit Scope py_scope with py.
Notation "x <- c ;; k" := (bind c (fun x => k))
  (at level 61, c at next level, right associativity) : py_scope.
Notation "' pat <- c ;; k" := (bind c (fun x => match x with pat => k end))
  (at level 61, pat pattern, c at next level, right associativity) : py_scope.

Definition is_class (c : exn_class) (e : exn) : bool :=
  match c, exn_cls e with
  | ZeroDivisionError, ZeroDivisionError | OverflowError, OverflowError
  | UnicodeDecodeError, UnicodeDecodeError | TypeError, TypeError
  | ValueError, ValueError | IndexError, IndexError
  | AttributeError, AttributeError | KeyError, KeyError
  | IOError, IOError | OtherError, OtherError => true
  | _, _ => false
  end.

(** ** Binary64 floating point

    A finite double is [(-1)^neg * mag * 2^(-1074)]: its magnitude is held in
    units of the smallest subnormal, so every finite double has an integer
    magnitude and the order of doubles is the order of these integers.  Every
    operation returns the exact result rounded to nearest, ties to even. *)

Module Float.

Inductive float :=
| Finite (neg : bool) (mag : Z)
| Infinity (neg : bool)
| NaN.

(** The number [1.0] in units, and the magnitude at which a result
    overflows ([2^1024]). *)
Definition unit_scale : Z := 2 ^ 1074.
Definition overflow : Z := 2 ^ 2098.

(** Nearest integer to [a / b], ties to even ([0 <= a], [0 < b]). *)
Definition round_half_even (a b : Z) : Z :=
  let q := a / b in
  match 2 * (a mod b) ?= b with
  | Lt => q
  | Gt => q + 1
  | Eq => if Z.even q then q else q + 1
  end.

(** Nearest integer to [n / 2^s], ties to even, by shifting. *)
Definition round_shift (n s : Z) : Z :=
  let q := Z.shiftr n s in
  match 2 * (n - Z.shiftl q s) ?= Z.shiftl 1 s with
  | Lt => q
  | Gt => q + 1
  | Eq => if Z.even q then q else q + 1
  end.

(** The binary exponent, above the subnormal one, at which [n / q] units
    has a 53-bit significand; [0] in the subnormal range. *)
Definition shift (n q : Z) : Z := Z.max 0 (Z.log2 (n / q) - 52).

(** Nearest double magnitude to [n / q] units: a 53-bit significand times
    [2^shift].  This is the rounding every operation below computes. *)
Definition round_units (n q : Z) : Z :=
  let s := shift n q in
  round_half_even n (q * 2 ^ s) * 2 ^ s.

(** Nearest double magnitude to the number [p / q]: [round_units] of
    [p * 2^1074 / q], with the powers of two cancelled before dividing. *)
Definition round_mag (p q : Z) : Z :=
  let s := shift (Z.shiftl p 1074) q in
  Z.shiftl (if s <=? 1074
            then round_half_even (Z.shiftl p (1074 - s)) q
            else round_half_even p (Z.shiftl q (s - 1074))) s.

(** Nearest double magnitude to the integer [n] of units: [round_units n 1]. *)
Definition round_sum (n : Z) : Z :=
  let s := Z.max 0 (Z.log2 n - 52) in
  Z.shiftl (round_shift n s) s.

(** Overflow to infinity at [2^1024]. *)
Definition finish (neg : bool) (mag : Z) : float :=
  if mag <? overflow then Finite neg mag else Infinity neg.

Definition of_quotient (neg : bool) (p q : Z) : float :=
  finish neg (round_mag p q).

Definition of_Z (z : Z) : float := of_quotient (z <? 0) (Z.abs z) 1.

(** The number of low zero bits two magnitudes share. *)
Fixpoint trailing_zeros (p : positive) : Z :=
  match p with
  | xO p' => Z.succ (trailing_zeros p')
  | _ => 0
  end.

Definition common_zeros (a b : Z) : Z :=
  match a, b with
  | Zpos p, Zpos q => Z.min (trailing_zeros p) (trailing_zeros q)
  | _, _ => 0
  end.

(** Signed magnitude of a finite double, in units of [2^(-1074)]. *)
Definition value (x : float) : Z :=
  match x with
  | Finite s m => if s then - m else m
  | _ => 0
  end.

Definition is_finite (x : float) : bool :=
  match x with Finite _ _ => true | _ => false end.

Definition is_zero (x : float) : bool :=
  match x with Finite _ m => m =? 0 | _ => false end.

Definition signbit (x : float) : bool :=
  match x with Finite s _ => s | Infinity s => s | NaN => false end.

Definition opp (x : float) : float :=
  match x with
  | Finite s m => Finite (negb s) m
  | Infinity s => Infinity (negb s)
  | NaN => NaN
  end.

Definition add (x y : float) : float :=
  match x, y with
  | NaN, _ | _, NaN => NaN
  | Infinity sx, Infinity sy => if Bool.eqb sx sy then Infinity sx else NaN
  | Infinity sx, _ => Infinity sx
  | _, Infinity sy => Infinity sy
  | Finite sx _, Finite sy _ =>
      let z := value x + value y in
      if z =? 0 then Finite (sx && sy) 0
      else finish (z <? 0) (round_sum (Z.abs z))
  end.

Definition div (x y : float) : float :=
  match x, y with
  | NaN, _ | _, NaN => NaN
  | Infinity _, Infinity _ => NaN
  | Infinity sx, Finite sy _ => Infinity (xorb sx sy)
  | Finite sx _, Infinity sy => Finite (xorb sx sy) 0
  | Finite sx mx, Finite sy my =>
      if my =? 0 then (if mx =? 0 then NaN else Infinity (xorb sx sy))
      else
        (* the quotient of the magnitudes, reduced by the power of two
           they share *)
        let t := common_zeros mx my in
        of_quotient (xorb sx sy) (Z.shiftr mx t) (Z.shiftr my t)
  end.

(** A finite double of magnitude at most [bound] units. *)
Definition within (bound : Z) (x : float) : Prop :=
  match x with
  | Finite _ m => 0 <= m <= bound
  | _ => False
  end.

(** The signed magnitude nearest to the exact fraction [z / q] units. *)
Definition round_signed (z q : Z) : Z := Z.sgn z * round_units (Z.abs z) q.


(** *** Fixed-point formatting: [format(x, '.<digits>f')] *)

Definition digit (d : Z) : str := String (ascii_of_nat (48 + Z.to_nat d)) "".

Fixpoint fixed_digits (n : nat) (z : Z) : str :=
  match n with
  | O => ""
  | S n' => (fixed_digits n' (z / 10) ++ digit (z mod 10))
  end.

Definition format_fixed (digits : nat) (x : float) : str :=
  match x with
  | NaN => "nan"
  | Infinity s => if s then "-inf" else "inf"
  | Finite s m =>
      let scale := 10 ^ Z.of_nat digits in
      let n := round_shift (m * scale) 1074 in
      ((if s then "-" else "") ++ str_of_Z (n / scale) ++
       match digits with
       | O => ""
       | _ => "." ++ fixed_digits digits (n mod scale)
       end)
  end.

(** *** Shortest round-trip text: [repr(x)], also [str(x)] and [f"{x}"] *)

(** [num / den < 10^k] *)
Definition lt_pow10 (num den k : Z) : bool :=
  if 0 <=? k then num <? den * 10 ^ k else num * 10 ^ (- k) <? den.

(** The decimal exponent [e] with [10^e <= num/den < 10^(e+1)], searched
    upwards from an estimate [e]. *)
Fixpoint decimal_exponent (fuel : nat) (num den e : Z) : Z :=
  match fuel with
  | O => e
  | S fuel' => if lt_pow10 num den (e + 1) then e
               else decimal_exponent fuel' num den (e + 1)
  end.

(** [num/den * 10^k] as a fraction. *)
Definition scale10 (num den k : Z) : Z * Z :=
  if 0 <=? k then (num * 10 ^ k, den) else (num, den * 10 ^ (- k)).

(** The double magnitude that the decimal [c * 10^(-k)] reads back as. *)
Definition read_back (c k : Z) : Z :=
  let '(a, b) := scale10 c 1 (- k) in round_mag a b.

(** Floor and nearest integer of [m * 10^k] units taken as a number. *)
Definition scaled_floor (m k : Z) : Z :=
  if 0 <=? k then Z.shiftr (m * 10 ^ k) 1074
  else m / (unit_scale * 10 ^ (- k)).

Definition scaled_nearest (m k : Z) : Z :=
  if 0 <=? k then round_shift (m * 10 ^ k) 1074
  else round_half_even m (unit_scale * 10 ^ (- k)).

(** The [n]-digit decimal for magnitude [m] (decimal exponent [e]), when
    one of the two [n]-digit neighbours of [m] reads back as [m]; the
    nearer one when both do. *)
Definition candidate (m e : Z) (n : nat) : option Z :=
  let k := Z.of_nat n - 1 - e in
  let lo := scaled_floor m k in
  let hi := lo + 1 in
  let ok_lo := read_back lo k =? m in
  let ok_hi := read_back hi k =? m in
  if ok_lo && ok_hi then Some (scaled_nearest m k)
  else if ok_lo then Some lo
  else if ok_hi then Some hi
  else None.

(** Fewest digits first; 17 digits always suffice. *)
Fixpoint shortest (m e : Z) (fuel n : nat) : Z * nat :=
  match fuel with
  | O => (scaled_nearest m (Z.of_nat n - 1 - e), n)
  | S fuel' =>
      match candidate m e n with
      | Some c => (c, n)
      | None => shortest m e fuel' (S n)
      end
  end.

Fixpoint rstrip0 (s : str) : str :=
  match s with
  | EmptyString => EmptyString
  | String c r =>
      match rstrip0 r with
      | EmptyString => if Ascii.eqb c "0" then EmptyString else String c EmptyString
      | r' => String c r'
      end
  end.

Fixpoint zeros (n : nat) : str :=
  match n with
  | O => ""
  | S n' => String "0" (zeros n')
  end.

(** [e+16], [e-05]: a sign and at least two digits. *)
Definition exponent_text (e : Z) : str :=
  ((if e <? 0 then "-" else "+") ++
   (if Z.abs e <? 10 then "0" else "") ++ str_of_Z (Z.abs e)).

(** Lay out the digits [ds] of [0.ds * 10^decpt]: exponent notation when
    [decpt <= -4] or [decpt > 16], positional otherwise. *)
Definition repr_digits (ds : str) (decpt : Z) : str :=
  let len := Z.of_nat (String.length ds) in
  if (decpt <=? -4) || (16 <? decpt) then
    (String.substring 0 1 ds ++
     (if 1 <? len then "." ++ String.substring 1 (String.length ds - 1) ds else "") ++
     "e" ++ exponent_text (decpt - 1))
  else if decpt <=? 0 then ("0." ++ zeros (Z.to_nat (- decpt)) ++ ds)
  else if len <=? decpt then (ds ++ zeros (Z.to_nat (decpt - len)) ++ ".0")
  else (String.substring 0 (Z.to_nat decpt) ds ++ "." ++
        String.substring (Z.to_nat decpt) (String.length ds - Z.to_nat decpt) ds).

Definition repr (x : float) : str :=
  match x with
  | NaN => "nan"
  | Infinity s => if s then "-inf" else "inf"
  | Finite s m =>
      ((if s then "-" else "") ++
       if m =? 0 then "0.0"
       else
         let e := decimal_exponent 4 m unit_scale
                    ((Z.log2 m - 1074) * 1233 / 4096 - 1) in
         let '(c, n) := shortest m e 16 1 in
         let cs := str_of_Z c in
         repr_digits (rstrip0 cs)
                     (Z.of_nat (String.length cs) - Z.of_nat n + 1 + e))
  end.

End Float.

(** ** UTF-8 decoding: [bytes.decode('utf-8', errors)] *)

Inductive error_handler := Strict | Ignore.

(** What the decoder finds at the head of the remaining input: a well-formed
    sequence of [n] bytes, or [n] bytes to reject and why. *)
Inductive utf8_step :=
| Scalar (n : nat)
| Malformed (n : nat) (reason : str).

Definition is_continuation (c : Z) : bool := (128 <=? c) && (c <? 192).

Definition invalid_start := "invalid start byte".
Definition invalid_continuation := "invalid continuation byte".
Definition unexpected_end := "unexpected end of data".

Definition utf8_scan (s : list Z) : utf8_step :=
  match s with
  | [] => Scalar 0
  | ch :: rest =>
      if ch <? 128 then Scalar 1
      else if ch <? 194 then Malformed 1 invalid_start
      else if ch <? 224 then
        match rest with
        | [] => Malformed 1 unexpected_end
        | ch2 :: _ =>
            if is_continuation ch2 then Scalar 2
            else Malformed 1 invalid_continuation
        end
      else if ch <? 240 then
        match rest with
        | [] => Malformed 1 unexpected_end
        | ch2 :: rest2 =>
            if negb (is_continuation ch2)
               || (if ch2 <? 160 then ch =? 224 else ch =? 237)
            then Malformed 1 invalid_continuation
            else match rest2 with
                 | [] => Malformed 2 unexpected_end
                 | ch3 :: _ =>
                     if is_continuation ch3 then Scalar 3
                     else Malformed 2 invalid_continuation
                 end
        end
      else if ch <? 245 then
        match rest with
        | [] => Malformed 1 unexpected_end
        | ch2 :: rest2 =>
            if negb (is_continuation ch2)
               || (if ch2 <? 144 then ch =? 240 else ch =? 244)
            then Malformed 1 invalid_continuation
            else match rest2 with
                 | [] => Malformed 2 unexpected_end
                 | ch3 :: rest3 =>
                     if negb (is_continuation ch3)
                     then Malformed 2 invalid_continuation
                     else match rest3 with
                          | [] => Malformed 3 unexpected_end
                          | ch4 :: _ =>
                              if is_continuation ch4 then Scalar 4
                              else Malformed 3 invalid_continuation
                          end
                 end
        end
      else Malformed 1 invalid_start
  end.

Definition byte_values (b : bytes) : list Z := map byte_val (list_ascii_of_string b).

(** [str(e)] of the [UnicodeDecodeError] for the bytes [pos, pos+n). *)
Definition decode_error (first : Z) (pos : Z) (n : nat) (reason : str) : exn :=
  mk_exn UnicodeDecodeError
    (match n with
     | 1%nat => "'utf-8' codec can't decode byte 0x" ++ hex2 first ++
                " in position " ++ str_of_Z pos ++ ": " ++ reason
     | _ => "'utf-8' codec can't decode bytes in position " ++ str_of_Z pos ++
            "-" ++ str_of_Z (pos + Z.of_nat n - 1) ++ ": " ++ reason
     end).

(** The decoding loop.  [keep] bytes still belong to the sequence being
    copied, [skip] bytes still belong to the rejected range. *)
Fixpoint utf8_loop (errors : error_handler) (s : bytes) (pos : Z)
         (keep skip : nat) : result str :=
  match s with
  | EmptyString => Ok EmptyString
  | String c rest =>
      match keep, skip with
      | S k, _ =>
          bind (utf8_loop errors rest (pos + 1) k 0) (fun r => Ok (String c r))
      | O, S k => utf8_loop errors rest (pos + 1) 0 k
      | O, O =>
          match utf8_scan (byte_values s) with
          | Scalar n =>
              bind (utf8_loop errors rest (pos + 1) (n - 1) 0)
                   (fun r => Ok (String c r))
          | Malformed n reason =>
              match errors with
              | Strict => Raise (decode_error (byte_val c) pos n reason)
              | Ignore => utf8_loop errors rest (pos + 1) 0 (n - 1)
              end
          end
      end
  end.

Definition utf8_decode (errors : error_handler) (b : bytes) : result str :=
  utf8_loop errors b 0 0 0.

(** ** Raw tag values *)

(** What the EXIF parser hands over: an integer, a byte string, or a tuple
    of values (a rational is a pair of integers); [VNone] is Python's
    [None], the result of [dict.get] on a missing key. *)
Inductive value :=
| VNone
| VInt (n : Z)
| VBytes (b : bytes)
| VTuple (items : list value).

Definition type_name (v : value) : str :=
  match v with
  | VNone => "NoneType"
  | VInt _ => "int"
  | VBytes _ => "bytes"
  | VTuple _ => "tuple"
  end.

(** Truth value, as tested by [if v] and [v and w]. *)
Definition truthy (v : value) : bool :=
  match v with
  | VNone => false
  | VInt n => negb (n =? 0)
  | VBytes b => negb (String.eqb b "")
  | VTuple items => match items with [] => false | _ => true end
  end.

(** [repr(b)] for bytes. *)
Definition contains (c : ascii) (b : bytes) : bool :=
  existsb (Ascii.eqb c) (list_ascii_of_string b).

Definition repr_byte (quote : ascii) (c : ascii) : str :=
  let n := byte_val c in
  if Ascii.eqb c quote || Ascii.eqb c "\" then String "\" (String c "")
  else if n =? 9 then "\t"
  else if n =? 10 then "\n"
  else if n =? 13 then "\r"
  else if (n <? 32) || (127 <=? n) then "\x" ++ hex2 n
  else String c "".

Definition repr_bytes (b : bytes) : str :=
  let quote : ascii :=
    if contains "'" b && negb (contains (ascii_of_nat 34) b)
    then ascii_of_nat 34 else "'"%char in
  "b" ++ String quote "" ++
  String.concat "" (map (repr_byte quote) (list_ascii_of_string b)) ++
  String quote "".

(** [repr(v)]; for these types [str(v)] is the same text. *)
Fixpoint py_repr (v : value) : str :=
  match v with
  | VNone => "None"
  | VInt n => str_of_Z n
  | VBytes b => repr_bytes b
  | VTuple items =>
      "(" ++ join ", " (map py_repr items) ++
      (match items with [_] => "," | _ => "" end) ++ ")"
  end.

Definition py_str (v : value) : str := py_repr v.

(** [v[i]] *)
Definition getitem (v : value) (i : nat) : result value :=
  match v with
  | VTuple items =>
      match nth_error items i with
      | Some x => Ok x
      | None => Raise (mk_exn IndexError "tuple index out of range")
      end
  | VBytes b =>
      match String.get i b with
      | Some c => Ok (VInt (byte_val c))
      | None => Raise (mk_exn IndexError "index out of range")
      end
  | _ => Raise (mk_exn TypeError
                  ("'" ++ type_name v ++ "' object is not subscriptable"))
  end.

(** [a, b, c = v] *)
Definition unpack3 (v : value) : result (value * value * value) :=
  let from_items (items : list value) :=
    match items with
    | [a; b; c] => Ok (a, b, c)
    | _ :: _ :: _ :: _ :: _ =>
        Raise (mk_exn ValueError "too many values to unpack (expected 3)")
    | _ =>
        Raise (mk_exn ValueError
                 ("not enough values to unpack (expected 3, got " ++
                  str_of_Z (Z.of_nat (List.length items)) ++ ")"))
    end in
  match v with
  | VTuple items => from_items items
  | VBytes b => from_items (map VInt (byte_values b))
  | _ => Raise (mk_exn TypeError
                  ("cannot unpack non-iterable " ++ type_name v ++ " object"))
  end.

(** [a / b] on raw values: true division of two integers, correctly
    rounded to a double. *)
Definition truediv (a b : value) : result Float.float :=
  match a, b with
  | VInt x, VInt y =>
      if y =? 0 then Raise (mk_exn ZeroDivisionError "division by zero")
      else
        match Float.of_quotient (xorb (x <? 0) (y <? 0)) (Z.abs x) (Z.abs y) with
        | Float.Infinity _ =>
            Raise (mk_exn OverflowError
                     "integer division result too large for a float")
        | q => Ok q
        end
  | _, _ => Raise (mk_exn TypeError
                     ("unsupported operand type(s) for /: '" ++ type_name a ++
                      "' and '" ++ type_name b ++ "'"))
  end.

(** [x / y] on doubles. *)
Definition float_truediv (x y : Float.float) : result Float.float :=
  if Float.is_zero y then Raise (mk_exn ZeroDivisionError "float division by zero")
  else Ok (Float.div x y).

(** [v.decode('utf-8')] *)
Definition decode (v : value) : result str :=
  match v with
  | VBytes b => utf8_decode Strict b
  | _ => Raise (mk_exn AttributeError
                  ("'" ++ type_name v ++ "' object has no attribute 'decode'"))
  end.

(** ** Dictionaries *)

(** A Python [dict] in insertion order; keys are distinct. *)
Definition dict (K V : Type) := list (K * V).

Fixpoint lookup {K V} (eqb : K -> K -> bool) (d : dict K V) (k : K) : option V :=
  match d with
  | [] => None
  | (k', v) :: d' => if eqb k' k then Some v else lookup eqb d' k
  end.

(** One IFD: tag id to raw value. *)
Definition ifd := dict Z value.

(** [d.get(tag)] and [d.get(tag, default)] *)
Definition ifd_get (d : ifd) (tag : Z) (default : value) : value :=
  match lookup Z.eqb d tag with
  | Some v => v
  | None => default
  end.

(** An entry of the metadata dictionary: an IFD, or the thumbnail slot,
    which holds bytes or [None]. *)
Inductive section :=
| Ifd (tags : ifd)
| Thumbnail (data : value).

Definition exif_dict := dict str section.

(** ** Output *)

(** A computation that prints: the lines printed so far, and how it ended. *)
Definition io (A : Type) := (list str * result A)%type.

Definition io_bind {A B} (c : io A) (k : A -> io B) : io B :=
  match c with
  | (out, Ok a) => let '(out', r) := k a in ((out ++ out')%list, r)
  | (out, Raise e) => (out, Raise e)
  end.

Definition print (text : str) : io unit := ([text], Ok tt).
Definition done : io unit := ([], Ok tt).
Definition lift {A} (r : result A) : io A := ([], r).

Declare Scope io_scope.
Delimit Scope io_scope with io.
Notation "x <- c ;; k" := (io_bind c (fun x => k))
  (at level 61, c at next level, right associativity) : io_scope.
Notation "' pat <- c ;; k" := (io_bind c (fun x => match x with pat => k end))
  (at level 61, pat pattern, c at next level, right associativity) : io_scope.
Notation "c ;; k" := (io_bind c (fun _ => k))
  (at level 61, right associativity) : io_scope.

(** [for x in items: body(x)] *)
Fixpoint for_each {A} (items : list A) (body : A -> io unit) : io unit :=
  match items with
  | [] => done
  | x :: rest => io_bind (body x) (fun _ => for_each rest body)
  end.

(** [try: body / except <caught> as e: handler(e)] *)
Definition try_except {A} (body : io A) (caught : exn -> bool)
           (handler : exn -> io A) : io A :=
  match body with
  | (out, Raise e) =>
      if caught e then let '(out', r) := handler e in ((out ++ out')%list, r)
      else (out, Raise e)
  | finished => finished
  end.

(** ** colorama and piexif constants *)

Module Fore.
Definition RED : str := ESC ++ "[31m".
Definition GREEN : str := ESC ++ "[32m".
Definition YELLOW : str := ESC ++ "[33m".
Definition CYAN : str := ESC ++ "[36m".
Definition WHITE : str := ESC ++ "[37m".
Definition LIGHTGREEN_EX : str := ESC ++ "[92m".
End Fore.

Module Style.
Definition BRIGHT : str := ESC ++ "[1m".
End Style.

Module GPSIFD.
Definition GPSLatitudeRef := 1.
Definition GPSLatitude := 2.
Definition GPSLongitudeRef := 3.
Definition GPSLongitude := 4.
Definition GPSAltitude := 6.
Definition GPSTimeStamp := 7.
Definition GPSSpeedRef := 12.
Definition GPSSpeed := 13.
Definition GPSImgDirectionRef := 16.
Definition GPSImgDirection := 17.
Definition GPSDestBearingRef := 23.
Definition GPSDestBearing := 24.
Definition GPSDateStamp := 29.
Definition GPSHPositioningError := 31.
End GPSIFD.

(** ** The script *)

Definition NA : str := "N/A".

(** The [try]/[except UnicodeDecodeError] of [format_value], as a function
    of how the decoding in its [try] block ended: what was decoded is
    returned, a [UnicodeDecodeError] becomes the byte-count placeholder. *)
Definition decode_or_placeholder (decoded : result str) (value : bytes) : result str :=
  match decoded with
  | Raise e =>
      if is_class UnicodeDecodeError e
      then Ok ("<" ++ str_of_Z (Z.of_nat (String.length value)) ++ " bytes>")
      else Raise e
  | returned => returned
  end.

(** [format_value]: bytes are decoded with [errors='ignore']; a tuple is
    joined with spaces; anything else is [str(value)]. *)
Definition format_value (value : value) : result str :=
  match value with
  | VBytes b => decode_or_placeholder (utf8_decode Ignore b) b
  | VTuple items => Ok (join " " (map py_str items))
  | _ => Ok (py_str value)
  end.

Definition convert_to_decimal (degree_tuple : value) : result Float.float :=
  ('(degrees, minutes, seconds) <- unpack3 degree_tuple ;;
   d0 <- getitem degrees 0 ;;
   d1 <- getitem degrees 1 ;;
   d <- truediv d0 d1 ;;
   m0 <- getitem minutes 0 ;;
   m1 <- getitem minutes 1 ;;
   m <- truediv m0 m1 ;;
   m60 <- float_truediv m (Float.of_Z 60) ;;
   let dm := Float.add d m60 in
   s0 <- getitem seconds 0 ;;
   s1 <- getitem seconds 1 ;;
   s <- truediv s0 s1 ;;
   s3600 <- float_truediv s (Float.of_Z 3600) ;;
   Ok (Float.add dm s3600))%py.

Definition get_google_maps_url (latitude longitude : Float.float) : str :=
  "https://www.google.com/maps?q=" ++ Float.repr latitude ++ "," ++
  Float.repr longitude.

(** [exif_dict.get('GPS', {})], as the dictionary every later [.get] is
    called on. *)
Definition gps_section (exif_dict : exif_dict) : result ifd :=
  match lookup String.eqb exif_dict "GPS" with
  | None => Ok []
  | Some (Ifd tags) => Ok tags
  | Some (Thumbnail v) =>
      Raise (mk_exn AttributeError
               ("'" ++ type_name v ++ "' object has no attribute 'get'"))
  end.

(** [f"{Fore.WHITE}{x[0] / x[1]} {ref.decode('utf-8')}" if x and ref else "N/A"],
    the shape shared by Speed, ImgDirection and DestBearing. *)
Definition with_reference (x ref : value) : result str :=
  if truthy x && truthy ref then
    (x0 <- getitem x 0 ;;
     x1 <- getitem x 1 ;;
     q <- truediv x0 x1 ;;
     unit_text <- decode ref ;;
     Ok (Fore.WHITE ++ Float.repr q ++ " " ++ unit_text))%py
  else Ok NA.

Definition parse_gps_data (exif_dict : exif_dict) : result (dict str str) :=
  (gps_info <- gps_section exif_dict ;;
   latitude_ref <- decode (ifd_get gps_info GPSIFD.GPSLatitudeRef (VBytes "N")) ;;
   longitude_ref <- decode (ifd_get gps_info GPSIFD.GPSLongitudeRef (VBytes "W")) ;;
   let latitude := ifd_get gps_info GPSIFD.GPSLatitude VNone in
   let longitude := ifd_get gps_info GPSIFD.GPSLongitude VNone in
   let altitude := ifd_get gps_info GPSIFD.GPSAltitude VNone in
   let time_stamp := ifd_get gps_info GPSIFD.GPSTimeStamp VNone in
   let speed_ref := ifd_get gps_info GPSIFD.GPSSpeedRef VNone in
   let speed := ifd_get gps_info GPSIFD.GPSSpeed VNone in
   let img_direction_ref := ifd_get gps_info GPSIFD.GPSImgDirectionRef VNone in
   let img_direction := ifd_get gps_info GPSIFD.GPSImgDirection VNone in
   let dest_bearing_ref := ifd_get gps_info GPSIFD.GPSDestBearingRef VNone in
   let dest_bearing := ifd_get gps_info GPSIFD.GPSDestBearing VNone in
   let date_stamp := ifd_get gps_info GPSIFD.GPSDateStamp VNone in
   let pos_error := ifd_get gps_info GPSIFD.GPSHPositioningError VNone in
   if truthy latitude && truthy longitude then
     lat_decimal <- convert_to_decimal latitude ;;
     lon_decimal <- convert_to_decimal longitude ;;
     let lat_decimal :=
       if String.eqb latitude_ref "S" then Float.opp lat_decimal else lat_decimal in
     let lon_decimal :=
       if String.eqb longitude_ref "W" then Float.opp lon_decimal else lon_decimal in
     let google_maps_url := get_google_maps_url lat_decimal lon_decimal in
     altitude_text <-
       (if truthy altitude then
          a0 <- getitem altitude 0 ;;
          a1 <- getitem altitude 1 ;;
          q <- truediv a0 a1 ;;
          Ok (Fore.LIGHTGREEN_EX ++ Float.format_fixed 2 q ++ " meters")
        else Ok NA) ;;
     time_text <- format_value time_stamp ;;
     speed_text <- with_reference speed speed_ref ;;
     img_direction_text <- with_reference img_direction img_direction_ref ;;
     dest_bearing_text <- with_reference dest_bearing dest_bearing_ref ;;
     date_text <- format_value date_stamp ;;
     pos_error_text <-
       (if truthy pos_error then
          p0 <- getitem pos_error 0 ;;
          p1 <- getitem pos_error 1 ;;
          q <- truediv p0 p1 ;;
          Ok (Fore.WHITE ++ Float.repr q ++ " meters")
        else Ok NA) ;;
     Ok [ ("Latitude",
           Fore.LIGHTGREEN_EX ++ Float.format_fixed 6 lat_decimal ++ " " ++ latitude_ref);
          ("Longitude",
           Fore.LIGHTGREEN_EX ++ Float.format_fixed 6 lon_decimal ++ " " ++ longitude_ref);
          ("Google Maps URL", Fore.LIGHTGREEN_EX ++ google_maps_url);
          ("Altitude", altitude_text);
          ("TimeStamp", Fore.WHITE ++ time_text);
          ("Speed", speed_text);
          ("ImgDirection", img_direction_text);
          ("DestBearing", dest_bearing_text);
          ("DateStamp", Fore.WHITE ++ date_text);
          ("PosError", pos_error_text) ]
   else
     Ok [ ("Latitude", NA); ("Longitude", NA); ("Google Maps URL", NA);
          ("Altitude", NA); ("TimeStamp", NA); ("Speed", NA);
          ("ImgDirection", NA); ("DestBearing", NA); ("DateStamp", NA);
          ("PosError", NA) ])%py.

Definition newline : str := String (ascii_of_nat 10) "".

Definition print_section_header (header : str) : io unit :=
  print (newline ++ Fore.YELLOW ++ Style.BRIGHT ++ header).

(** A resolved tag name: the name of the table, or the numeric id itself
    when the table does not know the tag. *)
Inductive tag_name :=
| Named (name : str)
| Numbered (tag_id : Z).

Definition tag_name_text (t : tag_name) : str :=
  match t with
  | Named name => name
  | Numbered tag_id => str_of_Z tag_id
  end.

(** [tag_name == 'MakerNote'] *)
Definition is_MakerNote (t : tag_name) : bool :=
  match t with
  | Named name => String.eqb name "MakerNote"
  | Numbered _ => false
  end.

(** What [Image.open] returns, as far as the script reads it. *)
Record image := {
  image_format : str;
  image_exif : option bytes;      (* image.info.get('exif') *)
  image_size : Z * Z;
  image_mode : str;
  image_info_text : str           (* str(image.info) *)
}.

Definition member (x : str) (l : list str) : bool := existsb (String.eqb x) l.

(** [table.get(tag_id, {}).get('name', tag_id)] *)
Definition name_in (table : dict Z str) (tag_id : Z) : tag_name :=
  match lookup Z.eqb table tag_id with
  | Some name => Named name
  | None => Numbered tag_id
  end.

Section Program.

(** [piexif.TAGS]: per IFD name, tag id to tag name. *)
Variable TAGS : dict str (dict Z str).
(** [Image.open] *)
Variable Image_open : str -> result image.
(** [piexif.load] *)
Variable piexif_load : bytes -> result exif_dict.

(** [piexif.TAGS[ifd_name].get(tag_id, {}).get('name', tag_id)] *)
Definition resolve_tag_name (ifd_name : str) (tag_id : Z) : result tag_name :=
  match lookup String.eqb TAGS ifd_name with
  | None => Raise (mk_exn KeyError ("'" ++ ifd_name ++ "'"))
  | Some table => Ok (name_in table tag_id)
  end.

(** [section.items()] *)
Definition items (s : section) : result (list (Z * value)) :=
  match s with
  | Ifd tags => Ok tags
  | Thumbnail v =>
      Raise (mk_exn AttributeError
               ("'" ++ type_name v ++ "' object has no attribute 'items'"))
  end.

(** The body of the loop of [print_exif_data]. *)
Definition print_tag (ifd_name : str) (entry : Z * value) : io unit :=
  let '(tag_id, value) := entry in
  (tag_name <- lift (resolve_tag_name ifd_name tag_id) ;;
   if is_MakerNote tag_name then done      (* continue *)
   else
     formatted_value <- lift (format_value value) ;;
     print ("  " ++ Fore.CYAN ++ tag_name_text tag_name ++ ": " ++
            Fore.WHITE ++ formatted_value))%io.

Definition print_exif_data (exif_dict : exif_dict) (ifd_name : str) : io unit :=
  match lookup String.eqb exif_dict ifd_name with
  | None =>
      print (Fore.RED ++ Style.BRIGHT ++ ifd_name ++ " EXIF Data: " ++
             Fore.YELLOW ++ "No data found.")
  | Some section =>
      (print (Fore.GREEN ++ Style.BRIGHT ++ ifd_name ++ " EXIF Data:") ;;
       tags <- lift (items section) ;;
       for_each tags (print_tag ifd_name))%io
  end.

Definition extract (image : image) : io unit :=
  match image_exif image with
  | Some exif_data =>
      if negb (String.eqb exif_data "") then
        (exif_dict <- lift (piexif_load exif_data) ;;
         print_section_header "General Information" ;;
         print_exif_data exif_dict "0th" ;;
         print_section_header "Camera Settings" ;;
         print_exif_data exif_dict "Exif" ;;
         print_section_header "GPS Data" ;;
         gps_data <- lift (parse_gps_data exif_dict) ;;
         for_each gps_data (fun '(key, value) =>
           print ("  " ++ Fore.CYAN ++ key ++ ": " ++ value)) ;;
         print_section_header "Interop Data" ;;
         print_exif_data exif_dict "Interop" ;;
         print_section_header "1st EXIF Data" ;;
         print_exif_data exif_dict "1st" ;;
         match lookup String.eqb exif_dict "thumbnail" with
         | Some _ =>
             print_section_header "Thumbnail Data" ;;
             print (Fore.RED ++
               "Thumbnail data found, but it is not parsed due to its binary nature.")
         | None => done
         end)%io
      else print (Fore.RED ++ "No EXIF data found.")
  | None => print (Fore.RED ++ "No EXIF data found.")
  end.

Definition get_exif_data (image_path : str) : io unit :=
  match Image_open image_path with
  | Raise e =>
      if is_class IOError e
      then print (Fore.RED ++ "Unable to open image file: " ++ exn_text e)
      else lift (Raise e)
  | Ok image =>
      let image_format := image_format image in
      (print (Fore.GREEN ++ "Image format: " ++ Fore.YELLOW ++ image_format) ;;
       if member image_format ["JPEG"; "JPG"] then
         try_except (extract image) (fun _ => true)
           (fun e => print (Fore.RED ++ "Error extracting EXIF data: " ++ exn_text e))
       else if member image_format ["PNG"; "TIFF"; "WEBP"; "BMP"] then
         print (Fore.GREEN ++ "Basic Information:") ;;
         print ("  " ++ Fore.CYAN ++ "Format: " ++ image_format) ;;
         print ("  " ++ Fore.CYAN ++ "Size: " ++ str_of_Z (fst (image_size image)) ++
                " x " ++ str_of_Z (snd (image_size image))) ;;
         print ("  " ++ Fore.CYAN ++ "Mode: " ++ image_mode image) ;;
         print ("  " ++ Fore.CYAN ++ "Info: " ++ image_info_text image) ;;
         print (Fore.RED ++ "EXIF data extraction is primarily supported for JPEG images. Other formats may not have EXIF data.")
       else
         print (Fore.RED ++ "Unsupported image format: " ++ image_format ++
                ". EXIF data extraction is only supported for JPEG images."))%io
  end.

End Program.

(** ** Vocabulary of the properties *)

(** An EXIF rational: numerator and denominator. *)
Definition rational := (Z * Z)%type.

(** The range of the 32-bit integers of an EXIF (S)RATIONAL. *)
Definition int32 (z : Z) : Prop := - 2 ^ 31 <= z < 2 ^ 32.

(** A rational whose division is defined. *)
Definition wf_rational (r : rational) : Prop :=
  int32 (fst r) /\ int32 (snd r) /\ snd r <> 0.

(** The exact number a rational stands for. *)
Definition to_Q (r : rational) : Q := (inject_Z (fst r) / inject_Z (snd r))%Q.

(** Rationals and coordinate triples as the parser hands them over. *)
Definition VRational (r : rational) : value := VTuple [VInt (fst r); VInt (snd r)].

Definition VTriple (d m s : rational) : value :=
  VTuple [VRational d; VRational m; VRational s].

(** [n / d] as a double. *)
Definition quotient (r : rational) : Float.float :=
  Float.of_quotient (xorb (fst r <? 0) (snd r <? 0)) (Z.abs (fst r)) (Z.abs (snd r)).

(** Degrees + minutes/60 + seconds/3600, in double arithmetic. *)
Definition decimal_degrees (d m s : rational) : Float.float :=
  Float.add (Float.add (quotient d) (Float.div (quotient m) (Float.of_Z 60)))
            (Float.div (quotient s) (Float.of_Z 3600)).

(** A coordinate: degrees, minutes, seconds. *)
Definition coordinate := (rational * rational * rational)%type.

Definition wf_coordinate (c : coordinate) : Prop :=
  let '(d, m, s) := c in wf_rational d /\ wf_rational m /\ wf_rational s.

Definition VCoordinate (c : coordinate) : value :=
  let '(d, m, s) := c in VTriple d m s.

Definition degrees_of (c : coordinate) : Float.float :=
  let '(d, m, s) := c in decimal_degrees d m s.

(** The sign rule: the decimal value is negated when the hemisphere
    reference is the given letter. *)
Definition signed_degrees (negating ref : str) (c : coordinate) : Float.float :=
  if String.eqb ref negating then Float.opp (degrees_of c) else degrees_of c.

Definition latitude_decimal := signed_degrees "S".
Definition longitude_decimal := signed_degrees "W".

(** What the decoder reads of a position: both coordinates, and the two
    hemisphere references after the defaults were applied. *)
Record gps_fix := {
  latitude_ref : str;
  latitude : coordinate;
  longitude_ref : str;
  longitude : coordinate
}.

Definition reads_fix (g : ifd) (f : gps_fix) : Prop :=
  decode (ifd_get g GPSIFD.GPSLatitudeRef (VBytes "N")) = Ok (latitude_ref f) /\
  decode (ifd_get g GPSIFD.GPSLongitudeRef (VBytes "W")) = Ok (longitude_ref f) /\
  ifd_get g GPSIFD.GPSLatitude VNone = VCoordinate (latitude f) /\
  wf_coordinate (latitude f) /\
  ifd_get g GPSIFD.GPSLongitude VNone = VCoordinate (longitude f) /\
  wf_coordinate (longitude f).

(** The optional tags, when present, have the EXIF shape: a rational with
    a non-zero denominator, a reference letter that is valid UTF-8. *)
Definition optional_rational (v : value) : Prop :=
  v = VNone \/ exists r, v = VRational r /\ wf_rational r.

Definition optional_text (v : value) : Prop :=
  v = VNone \/ exists b t, v = VBytes b /\ utf8_decode Strict b = Ok t.

Definition wf_optional (g : ifd) : Prop :=
  optional_rational (ifd_get g GPSIFD.GPSAltitude VNone) /\
  optional_rational (ifd_get g GPSIFD.GPSSpeed VNone) /\
  optional_text (ifd_get g GPSIFD.GPSSpeedRef VNone) /\
  optional_rational (ifd_get g GPSIFD.GPSImgDirection VNone) /\
  optional_text (ifd_get g GPSIFD.GPSImgDirectionRef VNone) /\
  optional_rational (ifd_get g GPSIFD.GPSDestBearing VNone) /\
  optional_text (ifd_get g GPSIFD.GPSDestBearingRef VNone) /\
  optional_rational (ifd_get g GPSIFD.GPSHPositioningError VNone).

(** The rational held by a raw value, if it is one. *)
Definition rational_of (v : value) : option rational :=
  match v with
  | VTuple [VInt n; VInt d] => Some (n, d)
  | _ => None
  end.

(** The Altitude and PosError fields as the decoder lays them out. *)
Definition altitude_display (v : value) : str :=
  match rational_of v with
  | Some r => Fore.LIGHTGREEN_EX ++ Float.format_fixed 2 (quotient r) ++ " meters"
  | None => NA
  end.

Definition pos_error_display (v : value) : str :=
  match rational_of v with
  | Some r => Fore.WHITE ++ Float.repr (quotient r) ++ " meters"
  | None => NA
  end.

(** [fields[key]] of the decoder's result. *)
Definition field (fields : dict str str) (key : str) : option str :=
  lookup String.eqb fields key.

Definition gps_keys : list str :=
  ["Latitude"; "Longitude"; "Google Maps URL"; "Altitude"; "TimeStamp";
   "Speed"; "ImgDirection"; "DestBearing"; "DateStamp"; "PosError"].

(** The text [format_value] returns. *)
Definition formatted (v : value) : str :=
  match format_value v with
  | Ok t => t
  | Raise _ => ""
  end.

(** The line the printer writes for a tag, and whether it writes one. *)
Definition tag_line (table : dict Z str) (entry : Z * value) : str :=
  "  " ++ Fore.CYAN ++ tag_name_text (name_in table (fst entry)) ++ ": " ++
  Fore.WHITE ++ formatted (snd entry).

Definition printed (table : dict Z str) (entry : Z * value) : bool :=
  negb (is_MakerNote (name_in table (fst entry))).



(** An unsigned rational, as the EXIF RATIONAL type holds it. *)
Definition unsigned_rational (r : rational) : Prop := 0 <= fst r /\ 0 < snd r.

Definition unsigned_coordinate (c : coordinate) : Prop :=
  let '(d, m, s) := c in
  unsigned_rational d /\ unsigned_rational m /\ unsigned_rational s.

(** ** Sample GPS sections *)

(** 40 deg 30' S, 74 deg W. *)
Definition sample_south : ifd :=
  [ (1, VBytes "S"); (2, VTriple (40, 1) (30, 1) (0, 1));
    (3, VBytes "W"); (4, VTriple (74, 1) (0, 1) (0, 1)) ].

Definition south_fix : gps_fix :=
  {| latitude_ref := "S"; latitude := ((40, 1), (30, 1), (0, 1));
     longitude_ref := "W"; longitude := ((74, 1), (0, 1), (0, 1)) |}.

(** The same position without hemisphere reference tags. *)
Definition sample_no_refs : ifd :=
  [ (2, VTriple (40, 1) (30, 1) (0, 1)); (4, VTriple (74, 1) (0, 1) (0, 1)) ].

Definition no_refs_fix : gps_fix :=
  {| latitude_ref := "N"; latitude := ((40, 1), (30, 1), (0, 1));
     longitude_ref := "W"; longitude := ((74, 1), (0, 1), (0, 1)) |}.

(** 48 deg 51' 29'' N, 2 deg 17' 40'' E. *)
Definition sample_paris : ifd :=
  [ (1, VBytes "N"); (2, VTriple (48, 1) (51, 1) (29, 1));
    (3, VBytes "E"); (4, VTriple (2, 1) (17, 1) (40, 1)) ].

Definition paris_fix : gps_fix :=
  {| latitude_ref := "N"; latitude := ((48, 1), (51, 1), (29, 1));
     longitude_ref := "E"; longitude := ((2, 1), (17, 1), (40, 1)) |}.

(** A position with an altitude of 35 m and a positioning error of 5 m. *)
Definition sample_measured : ifd :=
  [ (1, VBytes "S"); (2, VTriple (40, 1) (30, 1) (0, 1));
    (3, VBytes "W"); (4, VTriple (74, 1) (0, 1) (0, 1));
    (6, VRational (35, 1)); (31, VRational (5, 1)) ].

(** A latitude and an altitude, no longitude. *)
Definition sample_latitude_only : ifd :=
  [ (1, VBytes "S"); (2, VTriple (40, 1) (30, 1) (0, 1)); (6, VRational (35, 1)) ].

(** A latitude reference that is not UTF-8, and no coordinate. *)
Definition sample_bad_ref : ifd := [ (1, VBytes (String (ascii_of_nat 255) "")) ].

(** Minutes with a zero denominator. *)
Definition sample_zero_denominator : ifd :=
  [ (2, VTriple (40, 1) (30, 0) (0, 1)); (4, VTriple (74, 1) (0, 1) (0, 1)) ].

Definition gps_only (g : ifd) : exif_dict := [("GPS", Ifd g)].




(** ** A sample run *)

(** A tag table that knows two tags of the camera section. *)
Definition sample_TAGS : dict str (dict Z str) :=
  [ ("0th", [(271, "Make")]);
    ("Exif", [(37500, "MakerNote"); (33434, "ExposureTime")]) ].

Definition sample_camera : ifd :=
  [ (33434, VRational (1, 250)); (37500, VBytes "vendor"); (42036, VBytes "50mm") ].


Definition sample_dict : exif_dict :=
  [ ("0th", Ifd [(271, VBytes "Canon")]); ("Exif", Ifd sample_camera);
    ("GPS", Ifd sample_zero_denominator) ].



(** * Properties *)

Module FloatFacts.
Import Float.

Lemma rhe_lower a b : 0 < b -> a / b <= round_half_even a b.
Proof.
  intros Hb. unfold round_half_even.
  destruct (2 * (a mod b) ?= b); [destruct (Z.even (a / b))|..]; lia.
Qed.

Lemma rhe_upper a b : 0 < b -> round_half_even a b <= a / b + 1.
Proof.
  intros Hb. unfold round_half_even.
  destruct (2 * (a mod b) ?= b); [destruct (Z.even (a / b))|..]; lia.
Qed.

Lemma rhe_exact n b : 0 < b -> round_half_even (n * b) b = n.
Proof.
  intros Hb. unfold round_half_even.
  rewrite Z.mod_mul by lia. rewrite Z.div_mul by lia.
  replace (2 * 0) with 0 by lia.
  destruct (Z.compare_spec 0 b); lia.
Qed.

(** Cross-multiplied order of fractions gives the order of floors. *)
Lemma div_cross_le a1 b1 a2 b2 :
  0 < b1 -> 0 < b2 -> a1 * b2 <= a2 * b1 -> a1 / b1 <= a2 / b2.
Proof.
  intros H1 H2 H.
  apply Z.div_le_lower_bound; [lia|].
  pose proof (Z.mul_div_le a1 b1 H1).
  assert (b2 * (b1 * (a1 / b1)) <= b1 * a2) by nia.
  nia.
Qed.

Lemma rhe_mono a1 b1 a2 b2 :
  0 < b1 -> 0 < b2 -> a1 * b2 <= a2 * b1 ->
  round_half_even a1 b1 <= round_half_even a2 b2.
Proof.
  intros H1 H2 H.
  pose proof (div_cross_le _ _ _ _ H1 H2 H) as Hq.
  destruct (Z.eq_dec (a1 / b1) (a2 / b2)) as [E|NE].
  - pose proof (Z.div_mod a1 b1 ltac:(lia)) as D1.
    pose proof (Z.div_mod a2 b2 ltac:(lia)) as D2.
    pose proof (Z.mod_pos_bound a1 b1 H1) as B1.
    pose proof (Z.mod_pos_bound a2 b2 H2) as B2.
    assert (Hr : (a1 mod b1) * b2 <= (a2 mod b2) * b1).
    { rewrite E in D1. nia. }
    unfold round_half_even. rewrite E.
    destruct (Z.compare_spec (2 * (a1 mod b1)) b1) as [C1|C1|C1];
      destruct (Z.compare_spec (2 * (a2 mod b2)) b2) as [C2|C2|C2];
      try destruct (Z.even (a2 / b2)); try lia; nia.
  - pose proof (rhe_upper a1 b1 H1). pose proof (rhe_lower a2 b2 H2). lia.
Qed.


Lemma pow2_pos k : 0 < 2 ^ k \/ (k < 0 /\ 2 ^ k = 0).
Proof.
  destruct (Z.le_gt_cases 0 k).
  - left. apply Z.pow_pos_nonneg; lia.
  - right. split; [lia|]. apply Z.pow_neg_r; lia.
Qed.


Lemma shift_nonneg n q : 0 <= shift n q.
Proof. unfold shift. lia. Qed.

Lemma shift_upper n q :
  0 <= n -> 0 < q -> n < q * 2 ^ (53 + shift n q).
Proof.
  intros Hn Hq. unfold shift.
  set (x := n / q).
  assert (Hx : 0 <= x) by (apply Z.div_pos; lia).
  assert (Hlt : x < 2 ^ (53 + Z.max 0 (Z.log2 x - 52))).
  { destruct (Z.eq_dec x 0) as [->|Hx0].
    - apply Z.pow_pos_nonneg; lia.
    - destruct (Z.log2_spec x ltac:(lia)) as [_ Hu].
      eapply Z.lt_le_trans; [exact Hu|].
      apply Z.pow_le_mono_r; lia. }
  pose proof (Z.div_mod n q ltac:(lia)).
  pose proof (Z.mod_pos_bound n q Hq).
  fold x in H. nia.
Qed.

Lemma shift_lower n q :
  0 <= n -> 0 < q -> 0 < shift n q -> q * 2 ^ (52 + shift n q) <= n.
Proof.
  intros Hn Hq. unfold shift.
  set (x := n / q). intros Hs.
  assert (Hx : 0 < x).
  { destruct (Z.eq_dec x 0) as [E|]; [rewrite E in Hs; simpl in Hs; lia|].
    assert (0 <= x) by (apply Z.div_pos; lia). lia. }
  destruct (Z.log2_spec x Hx) as [Hl _].
  replace (52 + Z.max 0 (Z.log2 x - 52)) with (Z.log2 x) by lia.
  pose proof (Z.mul_div_le n q Hq). fold x in H. nia.
Qed.

Lemma shift_mono n1 q1 n2 q2 :
  0 <= n1 -> 0 < q1 -> 0 < q2 -> n1 * q2 <= n2 * q1 ->
  shift n1 q1 <= shift n2 q2.
Proof.
  intros Hn H1 H2 H. unfold shift.
  pose proof (div_cross_le _ _ _ _ H1 H2 H).
  pose proof (Z.log2_le_mono _ _ H0). lia.
Qed.

Lemma round_units_eq n q :
  round_units n q = round_half_even n (q * 2 ^ shift n q) * 2 ^ shift n q.
Proof. reflexivity. Qed.

Lemma round_units_nonneg n q : 0 <= n -> 0 < q -> 0 <= round_units n q.
Proof.
  intros Hn Hq. rewrite round_units_eq.
  pose proof (shift_nonneg n q).
  assert (0 < 2 ^ shift n q) by (apply Z.pow_pos_nonneg; lia).
  pose proof (rhe_lower n (q * 2 ^ shift n q) ltac:(nia)).
  assert (0 <= n / (q * 2 ^ shift n q)) by (apply Z.div_pos; nia).
  nia.
Qed.

Lemma round_units_mono n1 q1 n2 q2 :
  0 <= n1 -> 0 < q1 -> 0 < q2 -> n1 * q2 <= n2 * q1 ->
  round_units n1 q1 <= round_units n2 q2.
Proof.
  intros Hn H1 H2 H.
  assert (Hn2 : 0 <= n2) by nia.
  rewrite !round_units_eq.
  pose proof (shift_mono _ _ _ _ Hn H1 H2 H) as Hs.
  pose proof (shift_nonneg n1 q1) as Hs1.
  set (s1 := shift n1 q1) in *. set (s2 := shift n2 q2) in *.
  assert (P1 : 0 < 2 ^ s1) by (apply Z.pow_pos_nonneg; lia).
  assert (P2 : 0 < 2 ^ s2) by (apply Z.pow_pos_nonneg; lia).
  destruct (Z.eq_dec s1 s2) as [E|NE].
  - rewrite <- E.
    apply Z.mul_le_mono_nonneg_r; [lia|].
    apply rhe_mono; nia.
  - assert (U : round_half_even n1 (q1 * 2 ^ s1) <= 2 ^ 53).
    { rewrite <- (rhe_exact (2 ^ 53) 1) by lia.
      apply rhe_mono; [nia|lia|].
      pose proof (shift_upper n1 q1 Hn H1) as B. fold s1 in B.
      rewrite Z.pow_add_r in B by lia. nia. }
    assert (L : 2 ^ 52 <= round_half_even n2 (q2 * 2 ^ s2)).
    { rewrite <- (rhe_exact (2 ^ 52) 1) at 1 by lia.
      apply rhe_mono; [lia|nia|].
      pose proof (shift_lower n2 q2 Hn2 H2 ltac:(fold s2; lia)) as B. fold s2 in B.
      rewrite Z.pow_add_r in B by lia. nia. }
    assert (S : 2 ^ 53 * 2 ^ s1 <= 2 ^ 52 * 2 ^ s2).
    { rewrite <- !Z.pow_add_r by lia. apply Z.pow_le_mono_r; lia. }
    nia.
Qed.

(** A representable magnitude is its own rounding. *)
Lemma round_units_pow2 j q : 0 < q -> 0 <= j -> round_units (2 ^ j * q) q = 2 ^ j.
Proof.
  intros Hq Hj. unfold round_units, shift.
  rewrite Z.div_mul by lia. rewrite Z.log2_pow2 by lia.
  set (s := Z.max 0 (j - 52)).
  assert (0 <= s <= j) by lia.
  replace (2 ^ j * q) with (2 ^ (j - s) * (q * 2 ^ s)).
  - rewrite rhe_exact.
    + rewrite <- Z.pow_add_r by lia. f_equal. lia.
    + assert (0 < 2 ^ s) by (apply Z.pow_pos_nonneg; lia). nia.
  - replace j with ((j - s) + s) at 2 by lia.
    rewrite Z.pow_add_r by lia. ring.
Qed.


Lemma round_units_0 q : 0 < q -> round_units 0 q = 0.
Proof.
  intros Hq. unfold round_units, shift, round_half_even.
  rewrite !Zdiv_0_l, Zmod_0_l. simpl.
  rewrite Z.mul_1_r. destruct q; [lia|reflexivity|lia].
Qed.

Lemma round_units_le_pow2 n q j :
  0 <= n -> 0 < q -> 0 <= j -> n <= 2 ^ j * q -> round_units n q <= 2 ^ j.
Proof.
  intros Hn Hq Hj H. rewrite <- (round_units_pow2 j 1) by lia.
  apply round_units_mono; lia.
Qed.

(** Rounding a fraction does not depend on how it is written. *)
Lemma rhe_scale a b c :
  0 < b -> 0 < c -> round_half_even (a * c) (b * c) = round_half_even a b.
Proof.
  intros Hb Hc. unfold round_half_even.
  rewrite Z.div_mul_cancel_r by lia.
  rewrite Z.mul_mod_distr_r by lia.
  destruct (Z.compare_spec (2 * (a mod b * c)) (b * c));
    destruct (Z.compare_spec (2 * (a mod b)) b); try reflexivity; nia.
Qed.

Lemma round_units_scale n q c :
  0 < q -> 0 < c -> round_units (n * c) (q * c) = round_units n q.
Proof.
  intros Hq Hc. unfold round_units, shift.
  rewrite Z.div_mul_cancel_r by lia.
  set (s := Z.max 0 (Z.log2 (n / q) - 52)).
  assert (0 < 2 ^ s) by (apply Z.pow_pos_nonneg; lia).
  replace (q * c * 2 ^ s) with (q * 2 ^ s * c) by ring.
  rewrite rhe_scale by nia. reflexivity.
Qed.

Lemma round_shift_eq n s :
  0 <= s -> round_shift n s = round_half_even n (2 ^ s).
Proof.
  intros Hs. unfold round_shift, round_half_even.
  rewrite Z.shiftr_div_pow2, !Z.shiftl_mul_pow2 by lia.
  rewrite Z.mul_1_l.
  replace (n - n / 2 ^ s * 2 ^ s) with (n mod 2 ^ s); [reflexivity|].
  rewrite Z.mod_eq; [ring|].
  assert (0 < 2 ^ s) by (apply Z.pow_pos_nonneg; lia). lia.
Qed.

Lemma round_sum_eq n : round_sum n = round_units n 1.
Proof.
  unfold round_sum, round_units, shift. rewrite Z.div_1_r.
  set (s := Z.max 0 (Z.log2 n - 52)).
  rewrite Z.shiftl_mul_pow2, round_shift_eq, Z.mul_1_l by lia. reflexivity.
Qed.

Lemma unit_scale_pos : 0 < unit_scale.
Proof. unfold unit_scale. apply Z.pow_pos_nonneg; lia. Qed.

Lemma scaled_pow2 i : 0 <= i -> 2 ^ i * unit_scale = 2 ^ (i + 1074).
Proof. intros Hi. unfold unit_scale. symmetry. apply Z.pow_add_r; lia. Qed.

Lemma scaled_below_overflow i : 0 <= i < 1024 -> 2 ^ i * unit_scale < overflow.
Proof.
  intros Hi. rewrite scaled_pow2 by lia. unfold overflow.
  apply Z.pow_lt_mono_r; lia.
Qed.

Lemma round_mag_eq p q :
  0 < q -> round_mag p q = round_units (p * unit_scale) q.
Proof.
  intros Hq. unfold round_mag, round_units.
  rewrite (Z.shiftl_mul_pow2 p 1074) by lia.
  change (2 ^ 1074) with unit_scale.
  pose proof (shift_nonneg (p * unit_scale) q) as Hs.
  set (s := shift (p * unit_scale) q) in *.
  rewrite (Z.shiftl_mul_pow2 _ s) by lia. f_equal.
  assert (Ps : 0 < 2 ^ s) by (apply Z.pow_pos_nonneg; lia).
  destruct (Z.leb_spec s 1074) as [L|G].
  - rewrite Z.shiftl_mul_pow2 by lia.
    replace unit_scale with (2 ^ (1074 - s) * 2 ^ s).
    + rewrite Z.mul_assoc. rewrite rhe_scale by lia. reflexivity.
    + rewrite <- Z.pow_add_r by lia. unfold unit_scale. f_equal. lia.
  - rewrite Z.shiftl_mul_pow2 by lia.
    replace (2 ^ s) with (2 ^ (s - 1074) * unit_scale).
    + rewrite Z.mul_assoc. rewrite rhe_scale; [reflexivity| |exact unit_scale_pos].
      assert (0 < 2 ^ (s - 1074)) by (apply Z.pow_pos_nonneg; lia). nia.
    + unfold unit_scale. rewrite <- Z.pow_add_r by lia. f_equal. lia.
Qed.

Lemma trailing_zeros_nonneg p : 0 <= trailing_zeros p.
Proof. induction p; cbn [trailing_zeros]; lia. Qed.

Lemma trailing_zeros_divide p : (2 ^ trailing_zeros p | Z.pos p).
Proof.
  induction p as [p IH|p IH|]; cbn [trailing_zeros].
  - apply Z.divide_1_l.
  - rewrite Z.pow_succ_r by apply trailing_zeros_nonneg.
    change (Z.pos p~0) with (2 * Z.pos p).
    apply Z.mul_divide_mono_l. exact IH.
  - apply Z.divide_1_l.
Qed.

Lemma shiftr_exact a t :
  0 <= t -> (2 ^ t | a) -> Z.shiftr a t * 2 ^ t = a.
Proof.
  intros Ht [k ->]. rewrite Z.shiftr_div_pow2 by lia.
  assert (0 < 2 ^ t) by (apply Z.pow_pos_nonneg; lia).
  rewrite Z.div_mul by lia. reflexivity.
Qed.

Lemma common_zeros_spec a b :
  let t := common_zeros a b in
  0 <= t /\ Z.shiftr a t * 2 ^ t = a /\ Z.shiftr b t * 2 ^ t = b.
Proof.
  assert (Z0 : forall x, Z.shiftr x 0 * 2 ^ 0 = x).
  { intros x. rewrite Z.shiftr_0_r. change (2 ^ 0) with 1. lia. }
  destruct a as [|p|p]; cbn [common_zeros]; try (split; [lia|split; apply Z0]).
  destruct b as [|q|q]; try (split; [lia|split; apply Z0]).
  pose proof (trailing_zeros_nonneg p). pose proof (trailing_zeros_nonneg q).
  set (t := Z.min (trailing_zeros p) (trailing_zeros q)).
  assert (D : forall r, t <= trailing_zeros r -> (2 ^ t | Z.pos r)).
  { intros r Hr. apply Z.divide_trans with (2 ^ trailing_zeros r).
    - exists (2 ^ (trailing_zeros r - t)).
      rewrite <- Z.pow_add_r by lia. f_equal. lia.
    - apply trailing_zeros_divide. }
  split; [lia|]. split; apply shiftr_exact; try lia; apply D; lia.
Qed.


Lemma value_finish s m : 0 <= m < overflow -> finish s m = Finite s m.
Proof.
  intros H. unfold finish. destruct (Z.ltb_spec m overflow); [reflexivity|lia].
Qed.


Lemma within_weaken b b' x : within b x -> b <= b' -> within b' x.
Proof. destruct x; simpl; lia. Qed.

Lemma within_value b x : within b x -> Z.abs (value x) <= b.
Proof. destruct x as [[] m| |]; simpl; lia. Qed.

(** Correctly rounded quotient of two magnitudes, below the overflow
    threshold. *)
Lemma of_quotient_within s p q i :
  0 <= p -> 0 < q -> 0 <= i < 1024 -> p <= 2 ^ i * q ->
  of_quotient s p q = Finite s (round_units (p * unit_scale) q) /\
  0 <= round_units (p * unit_scale) q <= 2 ^ i * unit_scale.
Proof.
  intros Hp Hq Hi H.
  pose proof unit_scale_pos as PU.
  pose proof (scaled_below_overflow i Hi) as OV.
  assert (B : 0 <= round_units (p * unit_scale) q <= 2 ^ i * unit_scale).
  { split.
    - apply round_units_nonneg; nia.
    - rewrite scaled_pow2 by lia.
      apply round_units_le_pow2; try nia.
      rewrite <- scaled_pow2 by lia. nia. }
  split; [|exact B].
  unfold of_quotient. rewrite round_mag_eq by assumption.
  apply value_finish. lia.
Qed.

Lemma add_within x y i :
  within (2 ^ i * unit_scale) x -> within (2 ^ i * unit_scale) y ->
  0 <= i < 1023 ->
  within (2 ^ (i + 1) * unit_scale) (add x y) /\
  value (add x y) = round_signed (value x + value y) 1.
Proof.
  intros Hx Hy Hi.
  pose proof unit_scale_pos as PU.
  pose proof (scaled_below_overflow (i + 1) ltac:(lia)) as OV.
  assert (P2 : 2 ^ (i + 1) = 2 * 2 ^ i) by (rewrite Z.pow_add_r by lia; ring).
  assert (Pi : 0 < 2 ^ i) by (apply Z.pow_pos_nonneg; lia).
  pose proof (within_value _ _ Hx) as Vx. pose proof (within_value _ _ Hy) as Vy.
  destruct x as [sx mx| |]; try contradiction.
  destruct y as [sy my| |]; try contradiction.
  unfold add. set (z := value (Finite sx mx) + value (Finite sy my)) in *.
  destruct (Z.eqb_spec z 0) as [E|NE].
  - rewrite E. unfold round_signed, within, value.
    rewrite Z.sgn_0. split; [nia|]. destruct (sx && sy); lia.
  - assert (Hz : Z.abs z <= 2 ^ (i + 1) * unit_scale) by nia.
    assert (R : 0 <= round_units (Z.abs z) 1 <= 2 ^ (i + 1) * unit_scale).
    { split; [apply round_units_nonneg; lia|].
      rewrite scaled_pow2 by lia. apply round_units_le_pow2; try lia.
      rewrite <- scaled_pow2 by lia. lia. }
    rewrite round_sum_eq. rewrite value_finish by lia.
    split; [exact R|]. unfold round_signed. cbn [value].
    destruct (Z.ltb_spec z 0).
    + rewrite Z.sgn_neg by lia. lia.
    + rewrite Z.sgn_pos by lia. lia.
Qed.

Lemma div_within x c i :
  within (2 ^ i * unit_scale) x -> unit_scale <= c -> 0 <= i < 1024 ->
  within (2 ^ i * unit_scale) (div x (Finite false c)) /\
  value (div x (Finite false c)) = round_signed (value x * unit_scale) c.
Proof.
  intros Hx Hc Hi.
  pose proof unit_scale_pos as PU.
  assert (Pi : 0 < 2 ^ i) by (apply Z.pow_pos_nonneg; lia).
  destruct x as [sx mx| |]; try contradiction. cbn [within] in Hx.
  unfold div. destruct (Z.eqb_spec c 0); [lia|].
  destruct (common_zeros_spec mx c) as (Ht & Ex & Ec).
  set (t := common_zeros mx c) in *.
  assert (Pt : 0 < 2 ^ t) by (apply Z.pow_pos_nonneg; lia).
  set (mx' := Z.shiftr mx t) in *. set (c' := Z.shiftr c t) in *.
  assert (Hmx' : 0 <= mx') by nia.
  assert (Hc' : 0 < c') by nia.
  destruct (of_quotient_within (xorb sx false) mx' c' i) as [E B]; try lia.
  { nia. }
  assert (S : round_units (mx' * unit_scale) c' = round_units (mx * unit_scale) c).
  { rewrite <- Ex, <- Ec.
    replace (mx' * 2 ^ t * unit_scale) with (mx' * unit_scale * 2 ^ t) by ring.
    rewrite round_units_scale by lia. reflexivity. }
  rewrite S in E, B. rewrite E. split; [exact B|].
  rewrite xorb_false_r. unfold round_signed. cbn [value].
  destruct (Z.eq_dec mx 0) as [->|NZ].
  - rewrite Z.mul_0_l. destruct sx; cbn; rewrite round_units_0 by lia; reflexivity.
  - destruct sx.
    + rewrite Z.sgn_neg by nia. rewrite Z.abs_neq by nia.
      replace (- (- mx * unit_scale)) with (mx * unit_scale) by ring. lia.
    + rewrite Z.sgn_pos by nia. rewrite Z.abs_eq by nia. lia.
Qed.



Lemma of_Z_60 : of_Z 60 = Finite false (60 * unit_scale).
Proof. vm_compute. reflexivity. Qed.

Lemma of_Z_3600 : of_Z 3600 = Finite false (3600 * unit_scale).
Proof. vm_compute. reflexivity. Qed.

End FloatFacts.

Import FloatFacts.



Lemma quotient_spec r :
  wf_rational r ->
  truediv (VInt (fst r)) (VInt (snd r)) = Ok (quotient r) /\
  Float.within (2 ^ 32 * Float.unit_scale) (quotient r) /\
  Float.value (quotient r) =
    Float.round_signed (fst r * Z.sgn (snd r) * Float.unit_scale) (Z.abs (snd r)).
Proof.
  destruct r as [n d]. unfold wf_rational, int32. cbn [fst snd].
  intros (Hn & Hd & Hnz).
  pose proof unit_scale_pos as PU.
  assert (A32 : Z.abs n <= 2 ^ 32 * Z.abs d) by nia.
  destruct (of_quotient_within (xorb (n <? 0) (d <? 0)) (Z.abs n) (Z.abs d) 32)
    as [E B]; [lia|lia|lia|exact A32|].
  unfold truediv, quotient. cbn [fst snd].
  destruct (Z.eqb_spec d 0); [contradiction|].
  rewrite E. repeat split; try apply B.
  unfold Float.round_signed. cbn [Float.value].
  destruct (Z.eq_dec n 0) as [->|NZ].
  { rewrite ?Z.mul_0_l. change (Z.abs 0) with 0. rewrite ?Z.mul_0_l.
    rewrite round_units_0 by lia. destruct (xorb _ _); reflexivity. }
  replace (Z.abs (n * Z.sgn d * Float.unit_scale)) with (Z.abs n * Float.unit_scale).
  2:{ rewrite !Z.abs_mul. rewrite (Z.abs_eq Float.unit_scale) by lia.
      destruct d; [contradiction|..]; cbn [Z.sgn Z.abs]; ring. }
  destruct (Z.ltb_spec n 0), (Z.ltb_spec d 0); cbn [xorb].
  - rewrite Z.sgn_pos; [lia|]. rewrite (Z.sgn_neg d) by lia. nia.
  - rewrite Z.sgn_neg; [lia|]. rewrite (Z.sgn_pos d) by lia. nia.
  - rewrite Z.sgn_neg; [lia|]. rewrite (Z.sgn_neg d) by lia. nia.
  - rewrite Z.sgn_pos; [lia|]. rewrite (Z.sgn_pos d) by lia. nia.
Qed.

Lemma float_truediv_const x c :
  0 < c -> float_truediv x (Float.Finite false c) = Ok (Float.div x (Float.Finite false c)).
Proof.
  intros Hc. unfold float_truediv. cbn [Float.is_zero].
  destruct (Z.eqb_spec c 0); [lia|reflexivity].
Qed.

Lemma convert_to_decimal_triple d m s :
  wf_rational d -> wf_rational m -> wf_rational s ->
  convert_to_decimal (VTriple d m s) = Ok (decimal_degrees d m s).
Proof.
  intros Hd Hm Hs.
  destruct (quotient_spec d Hd) as [Ed _].
  destruct (quotient_spec m Hm) as [Em _].
  destruct (quotient_spec s Hs) as [Es _].
  pose proof unit_scale_pos as PU.
  unfold convert_to_decimal, decimal_degrees, VTriple, VRational.
  rewrite of_Z_60, of_Z_3600.
  assert (P60 : 0 < 60 * Float.unit_scale) by lia.
  assert (P3600 : 0 < 3600 * Float.unit_scale) by lia.
  set (c60 := 60 * Float.unit_scale) in *.
  set (c3600 := 3600 * Float.unit_scale) in *.
  clearbody c60 c3600.
  cbn [unpack3 bind getitem nth_error].
  rewrite Ed. cbn [bind]. rewrite Em. cbn [bind].
  rewrite float_truediv_const by assumption. cbn [bind].
  rewrite Es. cbn [bind].
  rewrite float_truediv_const by assumption. reflexivity.
Qed.

(** The three terms of the sum and the sum itself stay far below the
    overflow threshold. *)
Lemma minutes_within m :
  wf_rational m ->
  Float.within (2 ^ 32 * Float.unit_scale) (Float.div (quotient m) (Float.of_Z 60)).
Proof.
  intros Hm. destruct (quotient_spec m Hm) as (_ & W & _).
  pose proof unit_scale_pos as PU.
  rewrite of_Z_60. apply div_within; [exact W|lia|lia].
Qed.

Lemma seconds_within s :
  wf_rational s ->
  Float.within (2 ^ 32 * Float.unit_scale) (Float.div (quotient s) (Float.of_Z 3600)).
Proof.
  intros Hs. destruct (quotient_spec s Hs) as (_ & W & _).
  pose proof unit_scale_pos as PU.
  rewrite of_Z_3600. apply div_within; [exact W|lia|lia].
Qed.

Lemma decimal_degrees_within d m s :
  wf_rational d -> wf_rational m -> wf_rational s ->
  Float.within (2 ^ 34 * Float.unit_scale) (decimal_degrees d m s).
Proof.
  intros Hd Hm Hs. unfold decimal_degrees.
  pose proof unit_scale_pos as PU.
  destruct (quotient_spec d Hd) as (_ & Wd & _).
  pose proof (minutes_within m Hm) as Wm.
  pose proof (seconds_within s Hs) as Ws.
  destruct (add_within _ _ 32 Wd Wm ltac:(lia)) as [W1 _].
  change (32 + 1) with 33 in W1.
  apply (add_within _ _ 33 W1); [|lia].
  eapply within_weaken; [exact Ws|]. lia.
Qed.



(** The value of the sum in exact terms: every division and addition is
    the exact one rounded to the nearest double. *)
Lemma decimal_degrees_value d m s :
  wf_rational d -> wf_rational m -> wf_rational s ->
  let exact_quotient (r : rational) :=
    Float.round_signed (fst r * Z.sgn (snd r) * Float.unit_scale) (Z.abs (snd r)) in
  Float.value (decimal_degrees d m s) =
  Float.round_signed
    (Float.round_signed
       (exact_quotient d +
        Float.round_signed (exact_quotient m * Float.unit_scale)
                           (60 * Float.unit_scale)) 1 +
     Float.round_signed (exact_quotient s * Float.unit_scale)
                        (3600 * Float.unit_scale)) 1.
Proof.
  intros Hd Hm Hs. cbv zeta. unfold decimal_degrees.
  pose proof unit_scale_pos as PU.
  destruct (quotient_spec d Hd) as (_ & Wd & Vd).
  destruct (quotient_spec m Hm) as (_ & Wm & Vm).
  destruct (quotient_spec s Hs) as (_ & Ws & Vs).
  pose proof (minutes_within m Hm) as Wm'.
  pose proof (seconds_within s Hs) as Ws'.
  rewrite of_Z_60, of_Z_3600 in *.
  destruct (div_within _ (60 * Float.unit_scale) 32 Wm ltac:(lia) ltac:(lia)) as [_ Vm'].
  destruct (div_within _ (3600 * Float.unit_scale) 32 Ws ltac:(lia) ltac:(lia)) as [_ Vs'].
  destruct (add_within _ _ 32 Wd Wm' ltac:(lia)) as [W1 V1].
  change (32 + 1) with 33 in W1.
  assert (Ws'' : Float.within (2 ^ 33 * Float.unit_scale)
                   (Float.div (quotient s) (Float.Finite false (3600 * Float.unit_scale))))
    by (eapply within_weaken; [exact Ws'|lia]).
  destruct (add_within _ _ 33 W1 Ws'' ltac:(lia)) as [_ V2].
  rewrite V2, V1, Vm', Vs', Vd, Vm, Vs. reflexivity.
Qed.

(** * UTF-8 decoding *)

Lemma utf8_loop_ignore_total s :
  forall pos keep skip, exists t, utf8_loop Ignore s pos keep skip = Ok t.
Proof.
  induction s as [|c rest IH]; intros pos keep skip; cbn [utf8_loop].
  - eauto.
  - destruct keep as [|k].
    + destruct skip as [|k].
      * destruct (utf8_scan _) as [n|n reason].
        -- destruct (IH (pos + 1) (n - 1)%nat 0%nat) as [t ->]. cbn. eauto.
        -- apply IH.
      * apply IH.
    + destruct (IH (pos + 1) k 0%nat) as [t ->]. cbn. eauto.
Qed.

Lemma utf8_decode_ignore_total b : exists t, utf8_decode Ignore b = Ok t.
Proof. apply utf8_loop_ignore_total. Qed.




(** * Well-formed output of the decoder *)












(** * The value formatter *)

Lemma format_value_bytes b :
  exists t, utf8_decode Ignore b = Ok t /\ format_value (VBytes b) = Ok t.
Proof.
  destruct (utf8_decode_ignore_total b) as [t E].
  exists t. split; [exact E|]. unfold format_value. rewrite E. reflexivity.
Qed.

Lemma format_value_total v : exists t, format_value v = Ok t.
Proof.
  destruct v as [|n|b|items]; cbn [format_value]; eauto.
  destruct (format_value_bytes b) as (t & _ & E). eauto.
Qed.

(** * Optional GPS fields *)

Lemma truthy_rational r : truthy (VRational r) = true.
Proof. reflexivity. Qed.

Lemma getitem_rational_0 r : getitem (VRational r) 0 = Ok (VInt (fst r)).
Proof. reflexivity. Qed.

Lemma getitem_rational_1 r : getitem (VRational r) 1 = Ok (VInt (snd r)).
Proof. reflexivity. Qed.

Lemma rational_of_VRational r : rational_of (VRational r) = Some r.
Proof. destruct r; reflexivity. Qed.

Lemma with_reference_total x ref :
  optional_rational x -> optional_text ref ->
  exists t, with_reference x ref = Ok t.
Proof.
  intros [->|(r & -> & Hr)] Href; unfold with_reference.
  - cbn [truthy andb]. eauto.
  - rewrite truthy_rational. cbn [andb].
    destruct Href as [->|(b & t & -> & Hb)].
    + cbn [truthy]. eauto.
    + destruct (truthy (VBytes b)); [|eauto].
      rewrite getitem_rational_0, getitem_rational_1. cbn [bind].
      destruct (quotient_spec r Hr) as [-> _]. cbn [bind decode].
      rewrite Hb. cbn [bind]. eauto.
Qed.

Lemma format_value_formatted v : format_value v = Ok (formatted v).
Proof.
  unfold formatted. destruct (format_value_total v) as [t ->]. reflexivity.
Qed.

Lemma truthy_coordinate c : truthy (VCoordinate c) = true.
Proof. destruct c as [[d m] s]. reflexivity. Qed.

Lemma convert_to_decimal_coordinate c :
  wf_coordinate c -> convert_to_decimal (VCoordinate c) = Ok (degrees_of c).
Proof.
  destruct c as [[d m] s]. intros (Hd & Hm & Hs).
  apply convert_to_decimal_triple; assumption.
Qed.

Lemma altitude_text_spec v :
  optional_rational v ->
  (if truthy v then
     bind (getitem v 0) (fun a0 =>
     bind (getitem v 1) (fun a1 =>
     bind (truediv a0 a1) (fun q =>
     Ok (Fore.LIGHTGREEN_EX ++ Float.format_fixed 2 q ++ " meters"))))
   else Ok NA) = Ok (altitude_display v).
Proof.
  intros [->|(r & -> & Hr)].
  - reflexivity.
  - rewrite truthy_rational, getitem_rational_0, getitem_rational_1. cbn [bind].
    destruct (quotient_spec r Hr) as [-> _]. cbn [bind].
    unfold altitude_display. rewrite rational_of_VRational. reflexivity.
Qed.

Lemma pos_error_text_spec v :
  optional_rational v ->
  (if truthy v then
     bind (getitem v 0) (fun p0 =>
     bind (getitem v 1) (fun p1 =>
     bind (truediv p0 p1) (fun q =>
     Ok (Fore.WHITE ++ Float.repr q ++ " meters"))))
   else Ok NA) = Ok (pos_error_display v).
Proof.
  intros [->|(r & -> & Hr)].
  - reflexivity.
  - rewrite truthy_rational, getitem_rational_0, getitem_rational_1. cbn [bind].
    destruct (quotient_spec r Hr) as [-> _]. cbn [bind].
    unfold pos_error_display. rewrite rational_of_VRational. reflexivity.
Qed.

(** The decoder on a section that holds both coordinates. *)
Lemma parse_gps_data_fix d g f :
  gps_section d = Ok g -> reads_fix g f -> wf_optional g ->
  exists time_text speed_text img_direction_text dest_bearing_text date_text,
    format_value (ifd_get g GPSIFD.GPSTimeStamp VNone) = Ok time_text /\
    format_value (ifd_get g GPSIFD.GPSDateStamp VNone) = Ok date_text /\
    parse_gps_data d =
    Ok [ ("Latitude",
          Fore.LIGHTGREEN_EX ++
          Float.format_fixed 6 (latitude_decimal (latitude_ref f) (latitude f)) ++
          " " ++ latitude_ref f);
         ("Longitude",
          Fore.LIGHTGREEN_EX ++
          Float.format_fixed 6 (longitude_decimal (longitude_ref f) (longitude f)) ++
          " " ++ longitude_ref f);
         ("Google Maps URL",
          Fore.LIGHTGREEN_EX ++
          get_google_maps_url (latitude_decimal (latitude_ref f) (latitude f))
                              (longitude_decimal (longitude_ref f) (longitude f)));
         ("Altitude", altitude_display (ifd_get g GPSIFD.GPSAltitude VNone));
         ("TimeStamp", Fore.WHITE ++ time_text);
         ("Speed", speed_text);
         ("ImgDirection", img_direction_text);
         ("DestBearing", dest_bearing_text);
         ("DateStamp", Fore.WHITE ++ date_text);
         ("PosError", pos_error_display (ifd_get g GPSIFD.GPSHPositioningError VNone)) ].
Proof.
  intros Hsec (Hlr & Hgr & Hlat & Wlat & Hlon & Wlon)
         (Halt & Hsp & Hspr & Him & Himr & Hde & Hder & Hpe).
  destruct (format_value_total (ifd_get g GPSIFD.GPSTimeStamp VNone)) as [time_text Et].
  destruct (format_value_total (ifd_get g GPSIFD.GPSDateStamp VNone)) as [date_text Ed].
  destruct (with_reference_total _ _ Hsp Hspr) as [speed_text Es].
  destruct (with_reference_total _ _ Him Himr) as [img_text Ei].
  destruct (with_reference_total _ _ Hde Hder) as [dest_text Eb].
  exists time_text, speed_text, img_text, dest_text, date_text.
  split; [exact Et|]. split; [exact Ed|].
  unfold parse_gps_data.
  rewrite Hsec. cbn [bind]. rewrite Hlr, Hgr. cbn [bind]. cbv zeta.
  rewrite Hlat, Hlon, !truthy_coordinate. cbn [andb].
  rewrite !convert_to_decimal_coordinate by assumption. cbn [bind].
  rewrite (altitude_text_spec _ Halt). cbn [bind].
  rewrite Et. cbn [bind]. rewrite Es. cbn [bind]. rewrite Ei. cbn [bind].
  rewrite Eb. cbn [bind]. rewrite Ed. cbn [bind].
  rewrite (pos_error_text_spec _ Hpe). cbn [bind].
  reflexivity.
Qed.

(** The decoder on a section that lacks a coordinate. *)
Lemma parse_gps_data_missing d g lat_ref lon_ref :
  gps_section d = Ok g ->
  decode (ifd_get g GPSIFD.GPSLatitudeRef (VBytes "N")) = Ok lat_ref ->
  decode (ifd_get g GPSIFD.GPSLongitudeRef (VBytes "W")) = Ok lon_ref ->
  truthy (ifd_get g GPSIFD.GPSLatitude VNone) = false \/
  truthy (ifd_get g GPSIFD.GPSLongitude VNone) = false ->
  parse_gps_data d = Ok (map (fun key => (key, NA)) gps_keys).
Proof.
  intros Hsec Hlr Hgr Hmiss.
  unfold parse_gps_data.
  rewrite Hsec. cbn [bind]. rewrite Hlr, Hgr. cbn [bind]. cbv zeta.
  replace (truthy (ifd_get g GPSIFD.GPSLatitude VNone) &&
           truthy (ifd_get g GPSIFD.GPSLongitude VNone))%bool with false.
  - reflexivity.
  - destruct Hmiss as [-> | ->]; [reflexivity|].
    now rewrite andb_false_r.
Qed.

(** * Signs *)

Lemma signbit_finish s m : Float.signbit (Float.finish s m) = s.
Proof. unfold Float.finish. destruct (m <? Float.overflow); reflexivity. Qed.

Lemma signbit_quotient r :
  unsigned_rational r -> Float.signbit (quotient r) = false.
Proof.
  destruct r as [n d]. unfold unsigned_rational, quotient. cbn [fst snd].
  intros [Hn Hd]. unfold Float.of_quotient. rewrite signbit_finish.
  destruct (Z.ltb_spec n 0), (Z.ltb_spec d 0); try lia. reflexivity.
Qed.

Lemma signbit_div x c b :
  Float.within b x -> 0 < c ->
  Float.signbit (Float.div x (Float.Finite false c)) = Float.signbit x.
Proof.
  intros Hx Hc. destruct x as [s m| |]; try contradiction.
  unfold Float.div. destruct (Z.eqb_spec c 0); [lia|].
  cbv zeta. unfold Float.of_quotient. rewrite signbit_finish. apply xorb_false_r.
Qed.

Lemma signbit_add x y b :
  Float.within b x -> Float.within b y ->
  Float.signbit x = false -> Float.signbit y = false ->
  Float.signbit (Float.add x y) = false.
Proof.
  intros Hx Hy Sx Sy.
  destruct x as [sx mx| |]; try contradiction.
  destruct y as [sy my| |]; try contradiction.
  cbn [Float.signbit] in Sx, Sy. subst sx sy. cbn [Float.within] in Hx, Hy.
  unfold Float.add. cbn [Float.value].
  destruct (Z.eqb_spec (mx + my) 0); [reflexivity|].
  rewrite signbit_finish. destruct (Z.ltb_spec (mx + my) 0); [lia|reflexivity].
Qed.

Lemma signbit_degrees c :
  wf_coordinate c -> unsigned_coordinate c -> Float.signbit (degrees_of c) = false.
Proof.
  destruct c as [[d m] s]. intros (Hd & Hm & Hs) (Ud & Um & Us).
  cbn [degrees_of]. unfold decimal_degrees.
  pose proof unit_scale_pos as PU.
  destruct (quotient_spec d Hd) as (_ & Wd & _).
  destruct (quotient_spec m Hm) as (_ & Wm & _).
  destruct (quotient_spec s Hs) as (_ & Ws & _).
  pose proof (minutes_within m Hm) as Wm'.
  pose proof (seconds_within s Hs) as Ws'.
  destruct (add_within _ _ 32 Wd Wm' ltac:(lia)) as [W1 _].
  apply (signbit_add _ _ (2 ^ (32 + 1) * Float.unit_scale)).
  - exact W1.
  - eapply within_weaken; [exact Ws'|]. change (32 + 1) with 33. lia.
  - apply (signbit_add _ _ (2 ^ 32 * Float.unit_scale)); try assumption.
    + apply signbit_quotient; assumption.
    + rewrite of_Z_60. rewrite (signbit_div _ _ _ Wm) by lia.
      apply signbit_quotient; assumption.
  - rewrite of_Z_3600. rewrite (signbit_div _ _ _ Ws) by lia.
    apply signbit_quotient; assumption.
Qed.

Lemma degrees_finite c :
  wf_coordinate c -> Float.is_finite (degrees_of c) = true.
Proof.
  destruct c as [[d m] s]. intros (Hd & Hm & Hs). cbn [degrees_of].
  pose proof (decimal_degrees_within d m s Hd Hm Hs) as W.
  destruct (decimal_degrees d m s); [reflexivity|contradiction|contradiction].
Qed.

Lemma opp_neq x : Float.is_finite x = true -> Float.opp x <> x.
Proof.
  destruct x as [s m| |]; try discriminate. intros _. cbn.
  intros [= H]. destruct s; discriminate.
Qed.

Lemma format_fixed_opp k x :
  Float.is_finite x = true -> Float.signbit x = false ->
  Float.format_fixed k (Float.opp x) = "-" ++ Float.format_fixed k x.
Proof.
  destruct x as [s m| |]; try discriminate. cbn [Float.signbit]. intros _ ->.
  reflexivity.
Qed.

Lemma signed_degrees_iff negating ref c :
  wf_coordinate c ->
  (signed_degrees negating ref c = Float.opp (degrees_of c) <-> ref = negating).
Proof.
  intros Hc. unfold signed_degrees.
  destruct (String.eqb_spec ref negating) as [E|NE].
  - tauto.
  - split; [|contradiction]. intros H. symmetry in H.
    apply opp_neq in H; [contradiction|]. apply degrees_finite, Hc.
Qed.

(** An absent reference tag reads as its default. *)
Lemma reads_default_latitude g f :
  reads_fix g f -> lookup Z.eqb g GPSIFD.GPSLatitudeRef = None ->
  latitude_ref f = "N".
Proof.
  intros (H & _) E. unfold ifd_get in H. rewrite E in H.
  change (decode (VBytes "N")) with (@Ok str "N") in H. congruence.
Qed.

Lemma reads_default_longitude g f :
  reads_fix g f -> lookup Z.eqb g GPSIFD.GPSLongitudeRef = None ->
  longitude_ref f = "W".
Proof.
  intros (_ & H & _) E. unfold ifd_get in H. rewrite E in H.
  change (decode (VBytes "W")) with (@Ok str "W") in H. congruence.
Qed.

(** Evaluate [field] on a result whose keys are literal. *)
Ltac field_solve :=
  unfold field;
  repeat (cbn [lookup];
          match goal with
          | |- context [String.eqb ?a ?b] =>
              let r := eval vm_compute in (String.eqb a b) in
              change (String.eqb a b) with r
          end; cbv iota);
  reflexivity.

Ltac wf_solve :=
  unfold wf_coordinate, wf_rational, unsigned_coordinate, unsigned_rational, int32;
  cbn [fst snd]; repeat split; lia.



(** The order is not strict: two different seconds values can give the
    same double. *)
Lemma decimal_degrees_not_strict :
  Qlt (to_Q (1, 4294967295)) (to_Q (1, 4294967294)) /\
  decimal_degrees (40, 1) (30, 1) (1, 4294967295) =
  decimal_degrees (40, 1) (30, 1) (1, 4294967294).
Proof. split; [reflexivity|vm_compute; reflexivity]. Qed.

Lemma wf_optional_absent g :
  lookup Z.eqb g GPSIFD.GPSAltitude = None ->
  lookup Z.eqb g GPSIFD.GPSSpeed = None ->
  lookup Z.eqb g GPSIFD.GPSImgDirection = None ->
  lookup Z.eqb g GPSIFD.GPSDestBearing = None ->
  lookup Z.eqb g GPSIFD.GPSHPositioningError = None ->
  lookup Z.eqb g GPSIFD.GPSSpeedRef = None ->
  lookup Z.eqb g GPSIFD.GPSImgDirectionRef = None ->
  lookup Z.eqb g GPSIFD.GPSDestBearingRef = None ->
  wf_optional g.
Proof.
  intros H1 H2 H3 H4 H5 H6 H7 H8. unfold wf_optional, ifd_get.
  rewrite H1, H2, H3, H4, H5, H6, H7, H8.
  repeat split; left; reflexivity.
Qed.

Lemma reads_south : reads_fix sample_south south_fix.
Proof. unfold reads_fix. repeat split; try reflexivity; wf_solve. Qed.

Lemma reads_no_refs : reads_fix sample_no_refs no_refs_fix.
Proof. unfold reads_fix. repeat split; try reflexivity; wf_solve. Qed.

Lemma reads_paris : reads_fix sample_paris paris_fix.
Proof. unfold reads_fix. repeat split; try reflexivity; wf_solve. Qed.

Lemma reads_measured : reads_fix sample_measured south_fix.
Proof. unfold reads_fix. repeat split; try reflexivity; wf_solve. Qed.

Lemma wf_optional_south : wf_optional sample_south.
Proof. apply wf_optional_absent; reflexivity. Qed.

Lemma wf_optional_no_refs : wf_optional sample_no_refs.
Proof. apply wf_optional_absent; reflexivity. Qed.

Lemma wf_optional_paris : wf_optional sample_paris.
Proof. apply wf_optional_absent; reflexivity. Qed.

Lemma wf_optional_measured : wf_optional sample_measured.
Proof.
  unfold wf_optional.
  repeat split; try (left; reflexivity); right.
  - exists (35, 1). split; [reflexivity|wf_solve].
  - exists (5, 1). split; [reflexivity|wf_solve].
Qed.

(** C2, as amended.  For a well-formed GPS section holding both
    coordinates, the Latitude and Longitude fields show the signed decimal
    degrees to 6 decimal places followed by the hemisphere reference: the
    value is negated for "S" and "W", so an unsigned coordinate with such a
    reference is displayed with a leading minus sign. *)
Theorem latitude_longitude_display (d : exif_dict) (g : ifd) (f : gps_fix) :
  gps_section d = Ok g -> reads_fix g f -> wf_optional g ->
  exists fields,
    parse_gps_data d = Ok fields /\
    field fields "Latitude" =
      Some (Fore.LIGHTGREEN_EX ++
            Float.format_fixed 6 (latitude_decimal (latitude_ref f) (latitude f)) ++
            " " ++ latitude_ref f) /\
    field fields "Longitude" =
      Some (Fore.LIGHTGREEN_EX ++
            Float.format_fixed 6 (longitude_decimal (longitude_ref f) (longitude f)) ++
            " " ++ longitude_ref f) /\
    (latitude_ref f = "S" -> unsigned_coordinate (latitude f) ->
     Float.format_fixed 6 (latitude_decimal (latitude_ref f) (latitude f)) =
     "-" ++ Float.format_fixed 6 (degrees_of (latitude f))) /\
    (longitude_ref f = "W" -> unsigned_coordinate (longitude f) ->
     Float.format_fixed 6 (longitude_decimal (longitude_ref f) (longitude f)) =
     "-" ++ Float.format_fixed 6 (degrees_of (longitude f))).
Proof.
  intros Hsec Hfix Hopt.
  destruct (parse_gps_data_fix d g f Hsec Hfix Hopt)
    as (tt & st & it & dt & dst & _ & _ & E).
  destruct Hfix as (_ & _ & _ & Wlat & _ & Wlon).
  eexists. split; [exact E|].
  split; [field_solve|]. split; [field_solve|].
  split.
  - intros -> U. unfold latitude_decimal, signed_degrees.
    rewrite String.eqb_refl.
    apply format_fixed_opp; [apply degrees_finite|apply signbit_degrees]; assumption.
  - intros -> U. unfold longitude_decimal, signed_degrees.
    rewrite String.eqb_refl.
    apply format_fixed_opp; [apply degrees_finite|apply signbit_degrees]; assumption.
Qed.

Lemma latitude_longitude_display_witness :
  gps_section (gps_only sample_south) = Ok sample_south /\
  reads_fix sample_south south_fix /\
  wf_optional sample_south /\
  exists fields,
    parse_gps_data (gps_only sample_south) = Ok fields /\
    field fields "Latitude" =
      Some (Fore.LIGHTGREEN_EX ++
            Float.format_fixed 6
              (latitude_decimal (latitude_ref south_fix) (latitude south_fix)) ++
            " " ++ latitude_ref south_fix) /\
    field fields "Longitude" =
      Some (Fore.LIGHTGREEN_EX ++
            Float.format_fixed 6
              (longitude_decimal (longitude_ref south_fix) (longitude south_fix)) ++
            " " ++ longitude_ref south_fix) /\
    (latitude_ref south_fix = "S" -> unsigned_coordinate (latitude south_fix) ->
     Float.format_fixed 6
       (latitude_decimal (latitude_ref south_fix) (latitude south_fix)) =
     "-" ++ Float.format_fixed 6 (degrees_of (latitude south_fix))) /\
    (longitude_ref south_fix = "W" -> unsigned_coordinate (longitude south_fix) ->
     Float.format_fixed 6
       (longitude_decimal (longitude_ref south_fix) (longitude south_fix)) =
     "-" ++ Float.format_fixed 6 (degrees_of (longitude south_fix))).
Proof.
  assert (H1 : gps_section (gps_only sample_south) = Ok sample_south) by reflexivity.
  assert (H2 : reads_fix sample_south south_fix)
    by (unfold reads_fix; repeat split; try reflexivity; wf_solve).
  assert (H3 : wf_optional sample_south)
    by (unfold wf_optional; repeat split; left; reflexivity).
  exact (conj H1 (conj H2 (conj H3
           (latitude_longitude_display _ _ _ H1 H2 H3)))).
Defined.

(** What the decoder returns for the sample sections. *)
Lemma parse_south :
  parse_gps_data (gps_only sample_south) =
  Ok [ ("Latitude", Fore.LIGHTGREEN_EX ++ "-40.500000 S");
       ("Longitude", Fore.LIGHTGREEN_EX ++ "-74.000000 W");
       ("Google Maps URL",
        Fore.LIGHTGREEN_EX ++ "https://www.google.com/maps?q=-40.5,-74.0");
       ("Altitude", "N/A");
       ("TimeStamp", Fore.WHITE ++ "None");
       ("Speed", "N/A"); ("ImgDirection", "N/A"); ("DestBearing", "N/A");
       ("DateStamp", Fore.WHITE ++ "None");
       ("PosError", "N/A") ].
Proof. vm_compute. reflexivity. Qed.

(** C2, counterexample.  Latitude (40,1),(30,1),(0,1) with reference "S"
    is displayed with its minus sign, not as the unsigned "40.500000 S". *)
Lemma southern_latitude_shows_minus :
  exists fields,
    parse_gps_data (gps_only sample_south) = Ok fields /\
    field fields "Latitude" = Some (Fore.LIGHTGREEN_EX ++ "-40.500000 S") /\
    field fields "Latitude" <> Some (Fore.LIGHTGREEN_EX ++ "40.500000 S").
Proof.
  eexists. split; [exact parse_south|]. split; [reflexivity|].
  vm_compute. discriminate.
Qed.

(** C3, as amended.  With both coordinates present, an absent latitude
    reference reads as "N" and leaves the latitude as computed, an absent
    longitude reference reads as "W" and negates the longitude; the
    latitude is negated exactly when its reference is "S", the longitude
    exactly when its reference is "W"; these signed values are the ones
    displayed and linked. *)
Theorem hemisphere_sign_rule (d : exif_dict) (g : ifd) (f : gps_fix) :
  gps_section d = Ok g -> reads_fix g f -> wf_optional g ->
  (lookup Z.eqb g GPSIFD.GPSLatitudeRef = None ->
     latitude_ref f = "N" /\
     latitude_decimal (latitude_ref f) (latitude f) = degrees_of (latitude f)) /\
  (lookup Z.eqb g GPSIFD.GPSLongitudeRef = None ->
     longitude_ref f = "W" /\
     longitude_decimal (longitude_ref f) (longitude f) =
       Float.opp (degrees_of (longitude f))) /\
  (latitude_decimal (latitude_ref f) (latitude f) = Float.opp (degrees_of (latitude f))
     <-> latitude_ref f = "S") /\
  (latitude_ref f <> "S" ->
     latitude_decimal (latitude_ref f) (latitude f) = degrees_of (latitude f)) /\
  (longitude_decimal (longitude_ref f) (longitude f) = Float.opp (degrees_of (longitude f))
     <-> longitude_ref f = "W") /\
  (longitude_ref f <> "W" ->
     longitude_decimal (longitude_ref f) (longitude f) = degrees_of (longitude f)) /\
  exists fields,
    parse_gps_data d = Ok fields /\
    field fields "Latitude" =
      Some (Fore.LIGHTGREEN_EX ++
            Float.format_fixed 6 (latitude_decimal (latitude_ref f) (latitude f)) ++
            " " ++ latitude_ref f) /\
    field fields "Longitude" =
      Some (Fore.LIGHTGREEN_EX ++
            Float.format_fixed 6 (longitude_decimal (longitude_ref f) (longitude f)) ++
            " " ++ longitude_ref f) /\
    field fields "Google Maps URL" =
      Some (Fore.LIGHTGREEN_EX ++
            get_google_maps_url (latitude_decimal (latitude_ref f) (latitude f))
                                (longitude_decimal (longitude_ref f) (longitude f))).
Proof.
  intros Hsec Hfix Hopt.
  destruct (parse_gps_data_fix d g f Hsec Hfix Hopt)
    as (tt & st & it & dt & dst & _ & _ & E).
  pose proof (reads_default_latitude g f Hfix) as Dlat.
  pose proof (reads_default_longitude g f Hfix) as Dlon.
  destruct Hfix as (_ & _ & _ & Wlat & _ & Wlon).
  assert (NS : forall neg ref c, ref <> neg -> signed_degrees neg ref c = degrees_of c).
  { intros neg ref c NE. unfold signed_degrees.
    destruct (String.eqb_spec ref neg); [contradiction|reflexivity]. }
  repeat match goal with |- _ /\ _ => split end.
  - intros A. specialize (Dlat A). split; [exact Dlat|].
    apply NS. rewrite Dlat. discriminate.
  - intros A. specialize (Dlon A). split; [exact Dlon|].
    apply signed_degrees_iff; assumption.
  - apply signed_degrees_iff; assumption.
  - apply NS.
  - apply signed_degrees_iff; assumption.
  - apply NS.
  - eexists. split; [exact E|].
    split; [field_solve|]. split; field_solve.
Qed.

Lemma hemisphere_sign_rule_witness :
  gps_section (gps_only sample_no_refs) = Ok sample_no_refs /\
  reads_fix sample_no_refs no_refs_fix /\
  wf_optional sample_no_refs /\
  ((lookup Z.eqb sample_no_refs GPSIFD.GPSLatitudeRef = None ->
     latitude_ref no_refs_fix = "N" /\
     latitude_decimal (latitude_ref no_refs_fix) (latitude no_refs_fix) =
       degrees_of (latitude no_refs_fix)) /\
  (lookup Z.eqb sample_no_refs GPSIFD.GPSLongitudeRef = None ->
     longitude_ref no_refs_fix = "W" /\
     longitude_decimal (longitude_ref no_refs_fix) (longitude no_refs_fix) =
       Float.opp (degrees_of (longitude no_refs_fix))) /\
  (latitude_decimal (latitude_ref no_refs_fix) (latitude no_refs_fix) =
     Float.opp (degrees_of (latitude no_refs_fix))
     <-> latitude_ref no_refs_fix = "S") /\
  (latitude_ref no_refs_fix <> "S" ->
     latitude_decimal (latitude_ref no_refs_fix) (latitude no_refs_fix) =
       degrees_of (latitude no_refs_fix)) /\
  (longitude_decimal (longitude_ref no_refs_fix) (longitude no_refs_fix) =
     Float.opp (degrees_of (longitude no_refs_fix))
     <-> longitude_ref no_refs_fix = "W") /\
  (longitude_ref no_refs_fix <> "W" ->
     longitude_decimal (longitude_ref no_refs_fix) (longitude no_refs_fix) =
       degrees_of (longitude no_refs_fix)) /\
  exists fields,
    parse_gps_data (gps_only sample_no_refs) = Ok fields /\
    field fields "Latitude" =
      Some (Fore.LIGHTGREEN_EX ++
            Float.format_fixed 6
              (latitude_decimal (latitude_ref no_refs_fix) (latitude no_refs_fix)) ++
            " " ++ latitude_ref no_refs_fix) /\
    field fields "Longitude" =
      Some (Fore.LIGHTGREEN_EX ++
            Float.format_fixed 6
              (longitude_decimal (longitude_ref no_refs_fix) (longitude no_refs_fix)) ++
            " " ++ longitude_ref no_refs_fix) /\
    field fields "Google Maps URL" =
      Some (Fore.LIGHTGREEN_EX ++
            get_google_maps_url
              (latitude_decimal (latitude_ref no_refs_fix) (latitude no_refs_fix))
              (longitude_decimal (longitude_ref no_refs_fix) (longitude no_refs_fix)))).
Proof.
  assert (H1 : gps_section (gps_only sample_no_refs) = Ok sample_no_refs) by reflexivity.
  assert (H2 : reads_fix sample_no_refs no_refs_fix)
    by (unfold reads_fix; repeat split; try reflexivity; wf_solve).
  assert (H3 : wf_optional sample_no_refs)
    by (unfold wf_optional; repeat split; left; reflexivity).
  exact (conj H1 (conj H2 (conj H3 (hemisphere_sign_rule _ _ _ H1 H2 H3)))).
Defined.

(** C3, counterexample.  With no hemisphere reference tag at all, the
    longitude is negated: 74 deg is decoded as -74. *)
Lemma absent_longitude_ref_negates :
  lookup Z.eqb sample_no_refs GPSIFD.GPSLongitudeRef = None /\
  parse_gps_data (gps_only sample_no_refs) =
  Ok [ ("Latitude", Fore.LIGHTGREEN_EX ++ "40.500000 N");
       ("Longitude", Fore.LIGHTGREEN_EX ++ "-74.000000 W");
       ("Google Maps URL",
        Fore.LIGHTGREEN_EX ++ "https://www.google.com/maps?q=40.5,-74.0");
       ("Altitude", "N/A");
       ("TimeStamp", Fore.WHITE ++ "None");
       ("Speed", "N/A"); ("ImgDirection", "N/A"); ("DestBearing", "N/A");
       ("DateStamp", Fore.WHITE ++ "None");
       ("PosError", "N/A") ] /\
  longitude_decimal "W" ((74, 1), (0, 1), (0, 1)) <>
  degrees_of ((74, 1), (0, 1), (0, 1)).
Proof.
  split; [reflexivity|]. split; [vm_compute; reflexivity|].
  vm_compute. discriminate.
Qed.

(** C4, as amended.  When the hemisphere references decode (an absent
    one reads as its default) and the latitude or the longitude tag is
    missing, the decoder returns its ten fields, each of them "N/A",
    whatever else the section holds. *)
Theorem missing_coordinate_all_NA (d : exif_dict) (g : ifd) (lat_ref lon_ref : str) :
  gps_section d = Ok g ->
  decode (ifd_get g GPSIFD.GPSLatitudeRef (VBytes "N")) = Ok lat_ref ->
  decode (ifd_get g GPSIFD.GPSLongitudeRef (VBytes "W")) = Ok lon_ref ->
  lookup Z.eqb g GPSIFD.GPSLatitude = None \/
  lookup Z.eqb g GPSIFD.GPSLongitude = None ->
  exists fields,
    parse_gps_data d = Ok fields /\
    map fst fields = gps_keys /\
    forall key, In key gps_keys -> field fields key = Some "N/A".
Proof.
  intros Hsec Hlat Hlon Hmiss.
  exists (map (fun key => (key, NA)) gps_keys). split.
  - apply (parse_gps_data_missing d g lat_ref lon_ref Hsec Hlat Hlon).
    unfold ifd_get. destruct Hmiss as [-> | ->]; [left|right]; reflexivity.
  - split; [reflexivity|].
    intros key Hin. cbn [gps_keys In] in Hin.
    repeat (destruct Hin as [<-|Hin]; [reflexivity|]). contradiction.
Qed.

Lemma missing_coordinate_all_NA_witness :
  gps_section (gps_only sample_latitude_only) = Ok sample_latitude_only /\
  decode (ifd_get sample_latitude_only GPSIFD.GPSLatitudeRef (VBytes "N")) = Ok "S" /\
  decode (ifd_get sample_latitude_only GPSIFD.GPSLongitudeRef (VBytes "W")) = Ok "W" /\
  (lookup Z.eqb sample_latitude_only GPSIFD.GPSLatitude = None \/
   lookup Z.eqb sample_latitude_only GPSIFD.GPSLongitude = None) /\
  exists fields,
    parse_gps_data (gps_only sample_latitude_only) = Ok fields /\
    map fst fields = gps_keys /\
    forall key, In key gps_keys -> field fields key = Some "N/A".
Proof.
  assert (H1 : gps_section (gps_only sample_latitude_only) = Ok sample_latitude_only)
    by reflexivity.
  assert (H2 : decode (ifd_get sample_latitude_only GPSIFD.GPSLatitudeRef (VBytes "N"))
               = Ok "S") by reflexivity.
  assert (H3 : decode (ifd_get sample_latitude_only GPSIFD.GPSLongitudeRef (VBytes "W"))
               = Ok "W") by reflexivity.
  assert (H4 : lookup Z.eqb sample_latitude_only GPSIFD.GPSLatitude = None \/
               lookup Z.eqb sample_latitude_only GPSIFD.GPSLongitude = None)
    by (right; reflexivity).
  exact (conj H1 (conj H2 (conj H3 (conj H4
           (missing_coordinate_all_NA _ _ _ _ H1 H2 H3 H4))))).
Defined.

(** C4, counterexample.  A section with no coordinate whose latitude
    reference is the byte 0xff: the reference is decoded before the
    coordinates are looked at, and the decoder raises instead of returning
    "N/A" fields. *)
Lemma undecodable_reference_raises :
  lookup Z.eqb sample_bad_ref GPSIFD.GPSLatitude = None /\
  lookup Z.eqb sample_bad_ref GPSIFD.GPSLongitude = None /\
  parse_gps_data (gps_only sample_bad_ref) =
  Raise (mk_exn UnicodeDecodeError
           "'utf-8' codec can't decode byte 0xff in position 0: invalid start byte").
Proof. repeat split. Qed.

(** C6, as amended.  With both coordinates present the map link is
    [https://www.google.com/maps?q=<lat>,<lon>], where <lat> and <lon>
    are the signed decimal latitude and longitude in their shortest
    round-trip text ([repr]), not rounded to 6 decimal places. *)
Theorem map_link_embeds_repr (d : exif_dict) (g : ifd) (f : gps_fix) :
  gps_section d = Ok g -> reads_fix g f -> wf_optional g ->
  exists fields,
    parse_gps_data d = Ok fields /\
    field fields "Google Maps URL" =
      Some (Fore.LIGHTGREEN_EX ++ "https://www.google.com/maps?q=" ++
            Float.repr (latitude_decimal (latitude_ref f) (latitude f)) ++ "," ++
            Float.repr (longitude_decimal (longitude_ref f) (longitude f))).
Proof.
  intros Hsec Hfix Hopt.
  destruct (parse_gps_data_fix d g f Hsec Hfix Hopt)
    as (tt & st & it & dt & dst & _ & _ & E).
  eexists. split; [exact E|]. field_solve.
Qed.

Lemma map_link_embeds_repr_witness :
  gps_section (gps_only sample_paris) = Ok sample_paris /\
  reads_fix sample_paris paris_fix /\
  wf_optional sample_paris /\
  exists fields,
    parse_gps_data (gps_only sample_paris) = Ok fields /\
    field fields "Google Maps URL" =
      Some (Fore.LIGHTGREEN_EX ++ "https://www.google.com/maps?q=" ++
            Float.repr (latitude_decimal (latitude_ref paris_fix) (latitude paris_fix)) ++
            "," ++
            Float.repr (longitude_decimal (longitude_ref paris_fix) (longitude paris_fix))).
Proof.
  assert (H1 : gps_section (gps_only sample_paris) = Ok sample_paris) by reflexivity.
  assert (H2 : reads_fix sample_paris paris_fix)
    by (unfold reads_fix; repeat split; try reflexivity; wf_solve).
  assert (H3 : wf_optional sample_paris)
    by (unfold wf_optional; repeat split; left; reflexivity).
  exact (conj H1 (conj H2 (conj H3 (map_link_embeds_repr _ _ _ H1 H2 H3)))).
Defined.

(** What the decoder returns for the Paris sample. *)
Lemma parse_paris :
  parse_gps_data (gps_only sample_paris) =
  Ok [ ("Latitude", Fore.LIGHTGREEN_EX ++ "48.858056 N");
       ("Longitude", Fore.LIGHTGREEN_EX ++ "2.294444 E");
       ("Google Maps URL",
        Fore.LIGHTGREEN_EX ++
        "https://www.google.com/maps?q=48.85805555555556,2.2944444444444443");
       ("Altitude", "N/A");
       ("TimeStamp", Fore.WHITE ++ "None");
       ("Speed", "N/A"); ("ImgDirection", "N/A"); ("DestBearing", "N/A");
       ("DateStamp", Fore.WHITE ++ "None");
       ("PosError", "N/A") ].
Proof. vm_compute. reflexivity. Qed.

(** C6, counterexample.  For 48 deg 51' 29'' N, 2 deg 17' 40'' E the
    link carries 48.85805555555556,2.2944444444444443; the values rounded
    to 6 decimal places appear in the Latitude and Longitude fields only. *)
Lemma map_link_not_rounded :
  exists fields,
    parse_gps_data (gps_only sample_paris) = Ok fields /\
    field fields "Google Maps URL" =
      Some (Fore.LIGHTGREEN_EX ++
            "https://www.google.com/maps?q=48.85805555555556,2.2944444444444443") /\
    field fields "Google Maps URL" <>
      Some (Fore.LIGHTGREEN_EX ++ "https://www.google.com/maps?q=48.858056,2.294444").
Proof.
  eexists. split; [exact parse_paris|]. split; [reflexivity|].
  vm_compute. discriminate.
Qed.

(** C7.  With both coordinates present, the TimeStamp and DateStamp
    fields are the formatter's text for the raw tag value; for an absent
    tag that value is [None] and the field shows "None", not "N/A". *)
Theorem absent_stamp_shows_None (d : exif_dict) (g : ifd) (f : gps_fix) :
  gps_section d = Ok g -> reads_fix g f -> wf_optional g ->
  exists fields,
    parse_gps_data d = Ok fields /\
    format_value (ifd_get g GPSIFD.GPSTimeStamp VNone) =
      Ok (formatted (ifd_get g GPSIFD.GPSTimeStamp VNone)) /\
    field fields "TimeStamp" =
      Some (Fore.WHITE ++ formatted (ifd_get g GPSIFD.GPSTimeStamp VNone)) /\
    format_value (ifd_get g GPSIFD.GPSDateStamp VNone) =
      Ok (formatted (ifd_get g GPSIFD.GPSDateStamp VNone)) /\
    field fields "DateStamp" =
      Some (Fore.WHITE ++ formatted (ifd_get g GPSIFD.GPSDateStamp VNone)) /\
    (lookup Z.eqb g GPSIFD.GPSTimeStamp = None ->
       field fields "TimeStamp" = Some (Fore.WHITE ++ "None")) /\
    (lookup Z.eqb g GPSIFD.GPSDateStamp = None ->
       field fields "DateStamp" = Some (Fore.WHITE ++ "None")) /\
    Fore.WHITE ++ "None" <> "N/A".
Proof.
  intros Hsec Hfix Hopt.
  destruct (parse_gps_data_fix d g f Hsec Hfix Hopt)
    as (tt & st & it & dt & dst & Et & Ed & E).
  rewrite format_value_formatted in Et, Ed.
  injection Et as <-. injection Ed as <-.
  match type of E with _ = Ok ?l => set (fields := l) in * end.
  assert (FT : field fields "TimeStamp" =
               Some (Fore.WHITE ++ formatted (ifd_get g GPSIFD.GPSTimeStamp VNone)))
    by (subst fields; field_solve).
  assert (FD : field fields "DateStamp" =
               Some (Fore.WHITE ++ formatted (ifd_get g GPSIFD.GPSDateStamp VNone)))
    by (subst fields; field_solve).
  clearbody fields.
  exists fields. split; [exact E|].
  split; [apply format_value_formatted|]. split; [exact FT|].
  split; [apply format_value_formatted|]. split; [exact FD|].
  split; [|split].
  - intros A. rewrite FT. unfold ifd_get. rewrite A. reflexivity.
  - intros A. rewrite FD. unfold ifd_get. rewrite A. reflexivity.
  - discriminate.
Qed.

Lemma absent_stamp_shows_None_witness :
  gps_section (gps_only sample_south) = Ok sample_south /\
  reads_fix sample_south south_fix /\
  wf_optional sample_south /\
  exists fields,
    parse_gps_data (gps_only sample_south) = Ok fields /\
    format_value (ifd_get sample_south GPSIFD.GPSTimeStamp VNone) =
      Ok (formatted (ifd_get sample_south GPSIFD.GPSTimeStamp VNone)) /\
    field fields "TimeStamp" =
      Some (Fore.WHITE ++ formatted (ifd_get sample_south GPSIFD.GPSTimeStamp VNone)) /\
    format_value (ifd_get sample_south GPSIFD.GPSDateStamp VNone) =
      Ok (formatted (ifd_get sample_south GPSIFD.GPSDateStamp VNone)) /\
    field fields "DateStamp" =
      Some (Fore.WHITE ++ formatted (ifd_get sample_south GPSIFD.GPSDateStamp VNone)) /\
    (lookup Z.eqb sample_south GPSIFD.GPSTimeStamp = None ->
       field fields "TimeStamp" = Some (Fore.WHITE ++ "None")) /\
    (lookup Z.eqb sample_south GPSIFD.GPSDateStamp = None ->
       field fields "DateStamp" = Some (Fore.WHITE ++ "None")) /\
    Fore.WHITE ++ "None" <> "N/A".
Proof.
  assert (H1 : gps_section (gps_only sample_south) = Ok sample_south) by reflexivity.
  assert (H2 : reads_fix sample_south south_fix)
    by (unfold reads_fix; repeat split; try reflexivity; wf_solve).
  assert (H3 : wf_optional sample_south)
    by (unfold wf_optional; repeat split; left; reflexivity).
  exact (conj H1 (conj H2 (conj H3 (absent_stamp_shows_None _ _ _ H1 H2 H3)))).
Defined.

(** C8, as amended.  With both coordinates present, a present altitude
    (n,d) is shown as n/d to 2 decimal places followed by " meters"; a
    present positioning error is shown as n/d in its shortest round-trip
    text followed by " meters"; an absent tag gives "N/A". *)
Theorem altitude_pos_error_display (d : exif_dict) (g : ifd) (f : gps_fix) :
  gps_section d = Ok g -> reads_fix g f -> wf_optional g ->
  exists fields,
    parse_gps_data d = Ok fields /\
    (forall r, ifd_get g GPSIFD.GPSAltitude VNone = VRational r ->
       field fields "Altitude" =
         Some (Fore.LIGHTGREEN_EX ++ Float.format_fixed 2 (quotient r) ++ " meters")) /\
    (lookup Z.eqb g GPSIFD.GPSAltitude = None ->
       field fields "Altitude" = Some "N/A") /\
    (forall r, ifd_get g GPSIFD.GPSHPositioningError VNone = VRational r ->
       field fields "PosError" =
         Some (Fore.WHITE ++ Float.repr (quotient r) ++ " meters")) /\
    (lookup Z.eqb g GPSIFD.GPSHPositioningError = None ->
       field fields "PosError" = Some "N/A").
Proof.
  intros Hsec Hfix Hopt.
  destruct (parse_gps_data_fix d g f Hsec Hfix Hopt)
    as (tt & st & it & dt & dst & _ & _ & E).
  match type of E with _ = Ok ?l => set (fields := l) in * end.
  assert (FA : field fields "Altitude" =
               Some (altitude_display (ifd_get g GPSIFD.GPSAltitude VNone)))
    by (subst fields; field_solve).
  assert (FP : field fields "PosError" =
               Some (pos_error_display (ifd_get g GPSIFD.GPSHPositioningError VNone)))
    by (subst fields; field_solve).
  clearbody fields.
  exists fields. split; [exact E|].
  repeat match goal with |- _ /\ _ => split end.
  - intros r Hr. rewrite FA, Hr. unfold altitude_display.
    rewrite rational_of_VRational. reflexivity.
  - intros A. rewrite FA. unfold ifd_get. rewrite A. reflexivity.
  - intros r Hr. rewrite FP, Hr. unfold pos_error_display.
    rewrite rational_of_VRational. reflexivity.
  - intros A. rewrite FP. unfold ifd_get. rewrite A. reflexivity.
Qed.

Lemma altitude_pos_error_display_witness :
  gps_section (gps_only sample_measured) = Ok sample_measured /\
  reads_fix sample_measured south_fix /\
  wf_optional sample_measured /\
  exists fields,
    parse_gps_data (gps_only sample_measured) = Ok fields /\
    (forall r, ifd_get sample_measured GPSIFD.GPSAltitude VNone = VRational r ->
       field fields "Altitude" =
         Some (Fore.LIGHTGREEN_EX ++ Float.format_fixed 2 (quotient r) ++ " meters")) /\
    (lookup Z.eqb sample_measured GPSIFD.GPSAltitude = None ->
       field fields "Altitude" = Some "N/A") /\
    (forall r, ifd_get sample_measured GPSIFD.GPSHPositioningError VNone = VRational r ->
       field fields "PosError" =
         Some (Fore.WHITE ++ Float.repr (quotient r) ++ " meters")) /\
    (lookup Z.eqb sample_measured GPSIFD.GPSHPositioningError = None ->
       field fields "PosError" = Some "N/A").
Proof.
  assert (H1 : gps_section (gps_only sample_measured) = Ok sample_measured) by reflexivity.
  assert (H2 : reads_fix sample_measured south_fix)
    by (unfold reads_fix; repeat split; try reflexivity; wf_solve).
  assert (H3 : wf_optional sample_measured).
  { unfold wf_optional. repeat split; try (left; reflexivity); right.
    - exists (35, 1). split; [reflexivity|wf_solve].
    - exists (5, 1). split; [reflexivity|wf_solve]. }
  exact (conj H1 (conj H2 (conj H3 (altitude_pos_error_display _ _ _ H1 H2 H3)))).
Defined.

(** C8, counterexample.  A positioning error of (5,1) is shown as
    "5.0 meters"; to 2 decimal places it would read "5.00". *)
Lemma pos_error_not_two_decimals :
  parse_gps_data (gps_only sample_measured) =
  Ok [ ("Latitude", Fore.LIGHTGREEN_EX ++ "-40.500000 S");
       ("Longitude", Fore.LIGHTGREEN_EX ++ "-74.000000 W");
       ("Google Maps URL",
        Fore.LIGHTGREEN_EX ++ "https://www.google.com/maps?q=-40.5,-74.0");
       ("Altitude", Fore.LIGHTGREEN_EX ++ "35.00 meters");
       ("TimeStamp", Fore.WHITE ++ "None");
       ("Speed", "N/A"); ("ImgDirection", "N/A"); ("DestBearing", "N/A");
       ("DateStamp", Fore.WHITE ++ "None");
       ("PosError", Fore.WHITE ++ "5.0 meters") ] /\
  Float.format_fixed 2 (quotient (5, 1)) = "5.00".
Proof. split; vm_compute; reflexivity. Qed.

(** * The value formatter *)


(** The decoder on bytes that are and are not UTF-8. *)
Example format_value_mixed :
  format_value (VBytes (String (ascii_of_nat 226) (String "A"
                 (String (ascii_of_nat 195) (String (ascii_of_nat 169)
                 (String (ascii_of_nat 240) (String (ascii_of_nat 159) ""))))))) =
  Ok (String "A" (String (ascii_of_nat 195) (String (ascii_of_nat 169) ""))).
Proof. reflexivity. Qed.

Example decode_strict_mixed :
  utf8_decode Strict (String "A" (String (ascii_of_nat 195) (String (ascii_of_nat 169)
                       (String (ascii_of_nat 240) (String (ascii_of_nat 159) ""))))) =
  Raise (mk_exn UnicodeDecodeError
    "'utf-8' codec can't decode bytes in position 3-4: unexpected end of data").
Proof. reflexivity. Qed.

Example format_value_tuple :
  format_value (VTuple [VRational (12, 1); VInt 5; VBytes "a'b"; VTuple [VInt 1];
                        VTuple []; VNone]) =
  Ok ("(12, 1) 5 b" ++ dquote ++ "a'b" ++ dquote ++ " (1,) () None").
Proof. reflexivity. Qed.

(** * The metadata printer *)

Section Printer.

Variable TAGS : dict str (dict Z str).

Lemma for_each_tags ifd_name table tags :
  lookup String.eqb TAGS ifd_name = Some table ->
  for_each tags (print_tag TAGS ifd_name) =
  (map (tag_line table) (filter (printed table) tags), Ok tt).
Proof.
  intros Ht. induction tags as [|[tag_id v] rest IH]; [reflexivity|].
  cbn [for_each filter]. rewrite IH.
  unfold print_tag, resolve_tag_name. rewrite Ht.
  unfold printed at 2. cbn [fst lift io_bind].
  destruct (is_MakerNote (name_in table tag_id)) eqn:M; cbn [negb].
  - reflexivity.
  - rewrite format_value_formatted. reflexivity.
Qed.

Lemma print_exif_data_ifd d ifd_name tags table :
  lookup String.eqb d ifd_name = Some (Ifd tags) ->
  lookup String.eqb TAGS ifd_name = Some table ->
  print_exif_data TAGS d ifd_name =
  ((Fore.GREEN ++ Style.BRIGHT ++ ifd_name ++ " EXIF Data:") ::
   map (tag_line table) (filter (printed table) tags), Ok tt).
Proof.
  intros Hd Ht. unfold print_exif_data. rewrite Hd.
  cbn [items lift print io_bind app].
  rewrite (for_each_tags ifd_name table tags Ht). reflexivity.
Qed.

Lemma for_each_no_table ifd_name tags :
  lookup String.eqb TAGS ifd_name = None ->
  fst (for_each tags (print_tag TAGS ifd_name)) = [].
Proof.
  intros Ht. destruct tags as [|[tag_id v] rest]; [reflexivity|].
  cbn [for_each]. unfold print_tag, resolve_tag_name. rewrite Ht. reflexivity.
Qed.

(** Whatever the dictionary, the section key and the tag tables, a line the
    printer writes is the notice of a missing section, the header, or the
    line of a tag of the section whose resolved name is not "MakerNote". *)
Lemma print_exif_data_lines d ifd_name line :
  In line (fst (print_exif_data TAGS d ifd_name)) ->
  line = Fore.RED ++ Style.BRIGHT ++ ifd_name ++ " EXIF Data: " ++
         Fore.YELLOW ++ "No data found." \/
  line = Fore.GREEN ++ Style.BRIGHT ++ ifd_name ++ " EXIF Data:" \/
  exists tags table entry,
    lookup String.eqb d ifd_name = Some (Ifd tags) /\
    lookup String.eqb TAGS ifd_name = Some table /\
    In entry tags /\
    is_MakerNote (name_in table (fst entry)) = false /\
    line = tag_line table entry.
Proof.
  unfold print_exif_data.
  destruct (lookup String.eqb d ifd_name) as [[tags|v]|] eqn:Hd.
  - destruct (lookup String.eqb TAGS ifd_name) as [table|] eqn:Ht.
    + cbn [items lift print io_bind app].
      rewrite (for_each_tags ifd_name table tags Ht). cbn [fst app].
      intros [<-|Hin]; [auto|]. right. right.
      apply in_map_iff in Hin. destruct Hin as (entry & <- & Hin).
      apply filter_In in Hin. destruct Hin as [Hin Hp].
      exists tags, table, entry. repeat split; try assumption.
      unfold printed in Hp. now destruct (is_MakerNote _).
    + cbn [items lift print io_bind app].
      pose proof (for_each_no_table ifd_name tags Ht) as E.
      destruct (for_each tags (print_tag TAGS ifd_name)) as [out r].
      cbn [fst] in E. subst out. cbn [fst app].
      intros [<-|[]]. auto.
  - cbn. intros [<-|[]]. auto.
  - cbn. intros [<-|[]]. auto.
Qed.

End Printer.

Lemma printed_iff table entry :
  printed table entry = true <-> name_in table (fst entry) <> Named "MakerNote".
Proof.
  unfold printed. destruct (name_in table (fst entry)) as [name|n]; cbn.
  - destruct (String.eqb_spec name "MakerNote") as [->|NE]; cbn.
    + split; [discriminate|congruence].
    + split; [congruence|reflexivity].
  - split; [discriminate|reflexivity].
Qed.

(** C10.  For a section of the dictionary and its tag table, the printer
    writes the section header and then, in order, one line
    [name: formatted_value] for each tag whose resolved name is not
    "MakerNote", and nothing for the others; a tag the table does not know
    is shown by its numeric id. *)
Theorem print_exif_data_skips_MakerNote
    (TAGS : dict str (dict Z str)) (d : exif_dict) (ifd_name : str)
    (tags : ifd) (table : dict Z str) :
  lookup String.eqb d ifd_name = Some (Ifd tags) ->
  lookup String.eqb TAGS ifd_name = Some table ->
  print_exif_data TAGS d ifd_name =
    ((Fore.GREEN ++ Style.BRIGHT ++ ifd_name ++ " EXIF Data:") ::
     map (tag_line table) (filter (printed table) tags), Ok tt) /\
  (forall entry, In entry (filter (printed table) tags) <->
     In entry tags /\ name_in table (fst entry) <> Named "MakerNote") /\
  (forall tag_id v name, lookup Z.eqb table tag_id = Some name ->
     tag_line table (tag_id, v) =
     "  " ++ Fore.CYAN ++ name ++ ": " ++ Fore.WHITE ++ formatted v) /\
  (forall tag_id v, lookup Z.eqb table tag_id = None ->
     tag_line table (tag_id, v) =
     "  " ++ Fore.CYAN ++ str_of_Z tag_id ++ ": " ++ Fore.WHITE ++ formatted v) /\
  (forall v, format_value v = Ok (formatted v)).
Proof.
  intros Hd Ht. split; [apply print_exif_data_ifd; assumption|].
  split; [|split; [|split]].
  - intros entry. rewrite filter_In, printed_iff. tauto.
  - intros tag_id v name E. unfold tag_line, name_in. cbn [fst snd].
    rewrite E. reflexivity.
  - intros tag_id v E. unfold tag_line, name_in. cbn [fst snd].
    rewrite E. reflexivity.
  - apply format_value_formatted.
Qed.

Lemma print_exif_data_skips_MakerNote_witness :
  lookup String.eqb sample_dict "Exif" = Some (Ifd sample_camera) /\
  lookup String.eqb sample_TAGS "Exif" =
    Some [(37500, "MakerNote"); (33434, "ExposureTime")] /\
  (print_exif_data sample_TAGS sample_dict "Exif" =
    ((Fore.GREEN ++ Style.BRIGHT ++ "Exif" ++ " EXIF Data:") ::
     map (tag_line [(37500, "MakerNote"); (33434, "ExposureTime")])
         (filter (printed [(37500, "MakerNote"); (33434, "ExposureTime")])
                 sample_camera), Ok tt) /\
  (forall entry,
     In entry (filter (printed [(37500, "MakerNote"); (33434, "ExposureTime")])
                      sample_camera) <->
     In entry sample_camera /\
     name_in [(37500, "MakerNote"); (33434, "ExposureTime")] (fst entry) <>
       Named "MakerNote") /\
  (forall tag_id v name,
     lookup Z.eqb [(37500, "MakerNote"); (33434, "ExposureTime")] tag_id = Some name ->
     tag_line [(37500, "MakerNote"); (33434, "ExposureTime")] (tag_id, v) =
     "  " ++ Fore.CYAN ++ name ++ ": " ++ Fore.WHITE ++ formatted v) /\
  (forall tag_id v,
     lookup Z.eqb [(37500, "MakerNote"); (33434, "ExposureTime")] tag_id = None ->
     tag_line [(37500, "MakerNote"); (33434, "ExposureTime")] (tag_id, v) =
     "  " ++ Fore.CYAN ++ str_of_Z tag_id ++ ": " ++ Fore.WHITE ++ formatted v) /\
  (forall v, format_value v = Ok (formatted v))).
Proof.
  assert (H1 : lookup String.eqb sample_dict "Exif" = Some (Ifd sample_camera))
    by reflexivity.
  assert (H2 : lookup String.eqb sample_TAGS "Exif" =
               Some [(37500, "MakerNote"); (33434, "ExposureTime")]) by reflexivity.
  exact (conj H1 (conj H2
           (print_exif_data_skips_MakerNote sample_TAGS sample_dict "Exif" _ _ H1 H2))).
Defined.

(** The camera section of the sample, as printed. *)
Example print_sample_camera :
  print_exif_data sample_TAGS sample_dict "Exif" =
  ([ Fore.GREEN ++ Style.BRIGHT ++ "Exif EXIF Data:";
     "  " ++ Fore.CYAN ++ "ExposureTime: " ++ Fore.WHITE ++ "1 250";
     "  " ++ Fore.CYAN ++ "42036: " ++ Fore.WHITE ++ "50mm" ], Ok tt).
Proof. reflexivity. Qed.

(** * Zero denominators *)






(** * The dispatcher *)

Section Dispatcher.

Variable TAGS : dict str (dict Z str).
Variable Image_open : str -> result image.
Variable piexif_load : bytes -> result exif_dict.

(** Once the image is open, the run ends normally: whatever the
    extraction raises is caught. *)
Lemma get_exif_data_returns image_path image :
  Image_open image_path = Ok image ->
  exists out, get_exif_data TAGS Image_open piexif_load image_path = (out, Ok tt).
Proof.
  intros Hopen. unfold get_exif_data. rewrite Hopen. cbv zeta.
  unfold io_bind at 1. cbn [print].
  destruct (member (image_format image) ["JPEG"; "JPG"]).
  - unfold try_except.
    destruct (extract TAGS piexif_load image) as [out [[]|e]]; cbn; eauto.
  - destruct (member (image_format image) ["PNG"; "TIFF"; "WEBP"; "BMP"]);
      cbn; eauto.
Qed.


End Dispatcher.


